(** * Connection lifecycle of the WhatsApp MCP server (src/app.js)

    A shallow embedding of the lifecycle code of [src/app.js]: the five
    module-level variables (lines 43-48), [initializeClient] with the event
    handlers it registers (lines 83-170), the readiness middleware
    (lines 173-182), the status and admin routes (lines 190-254) and the
    error middleware (lines 594-601).

    JavaScript runs every handler to its next [await]; what is awaited
    (file removal, [client.destroy()], [client.initialize()],
    [client.logout()]) settles later, in a task of its own.  An [async]
    function is therefore cut at its [await]s into frames, a suspended call
    chain is a stack of frames, and the environment chooses which event,
    timer, settlement or request comes next.

    The capability client, the session directory and the HTTP layer appear
    through the calls made on them and the answers sent.  Console output,
    the code drawn in the terminal and the routes that only use the client
    once it is ready (lines 256-591, which read [client] and write none of
    the five variables) are left out.  The attempt counter is a JavaScript
    number that stays within 0..3, a [nat] here. *)

From Stdlib Require Import NArith ZArith Lia.
From stdpp Require Import base list strings.

Open Scope string_scope.
Open Scope nat_scope.
Open Scope list_scope.

(** ** Data *)

(** How an awaited promise settles; a rejection carries [error.message]. *)
Inductive outcome :=
| Resolved
| Rejected (message : string).

(** The places where an [async] function of the source waits. *)
Inductive frame :=
| IC_clean       (* initializeClient, line 91:  await cleanSession()        *)
| IC_destroy     (* initializeClient, line 102: await client.destroy()      *)
| IC_initialize  (* initializeClient, line 160: await client.initialize()   *)
| AF_clean       (* 'auth_failure',   line 139: await cleanSession()        *)
| RS_destroy     (* POST /restart,    line 209: await client.destroy()      *)
| RS_init        (* POST /restart,    line 215: await initializeClient()    *)
| CS_destroy     (* POST /clean-session, line 225: await client.destroy()   *)
| CS_clean       (* POST /clean-session, line 231: await cleanSession()     *)
| LO_logout      (* POST /logout,     line 243: await client.logout()       *)
| SS_init.       (* startServer,      line 612: await initializeClient()    *)

(** The values the routes put into their JSON bodies. *)
Inductive json :=
| JNull
| JBool (b : bool)
| JNum (n : nat)
| JStr (s : string).

Record response := Response {
  status : nat;
  body : list (string * json)
}.

(** The module variables of lines 43-48, followed by what the program has
    around it: the capability clients made so far (a client is named by its
    rank of creation), the calls made on them and on the session directory,
    the armed timers (each one runs [() => initializeClient()], so its delay
    in milliseconds is all there is to it), the suspended call chains, the
    HTTP listener and the responses sent. *)
Record state := State {
  client : option nat;
  isClientReady : bool;
  qrCodeString : option string;
  initializationAttempts : nat;
  isInitializing : bool;
  created : nat;
  rmCalls : nat;
  destroyCalls : list nat;
  logoutCalls : list nat;
  timers : list N;
  tasks : list (list frame);
  listening : bool;
  responses : list response
}.

Definition MAX_INIT_ATTEMPTS : nat := 3.

Definition set_client v s :=
  let '(State _ b c d e f g h i j k l m) := s in State v b c d e f g h i j k l m.
Definition set_isClientReady v s :=
  let '(State a _ c d e f g h i j k l m) := s in State a v c d e f g h i j k l m.
Definition set_qrCodeString v s :=
  let '(State a b _ d e f g h i j k l m) := s in State a b v d e f g h i j k l m.
Definition set_initializationAttempts v s :=
  let '(State a b c _ e f g h i j k l m) := s in State a b c v e f g h i j k l m.
Definition set_isInitializing v s :=
  let '(State a b c d _ f g h i j k l m) := s in State a b c d v f g h i j k l m.
Definition set_created v s :=
  let '(State a b c d e _ g h i j k l m) := s in State a b c d e v g h i j k l m.
Definition set_rmCalls v s :=
  let '(State a b c d e f _ h i j k l m) := s in State a b c d e f v h i j k l m.
Definition set_destroyCalls v s :=
  let '(State a b c d e f g _ i j k l m) := s in State a b c d e f g v i j k l m.
Definition set_logoutCalls v s :=
  let '(State a b c d e f g h _ j k l m) := s in State a b c d e f g h v j k l m.
Definition set_timers v s :=
  let '(State a b c d e f g h i _ k l m) := s in State a b c d e f g h i v k l m.
Definition set_tasks v s :=
  let '(State a b c d e f g h i j _ l m) := s in State a b c d e f g h i j v l m.
Definition set_listening v s :=
  let '(State a b c d e f g h i j k _ m) := s in State a b c d e f g h i j k v m.
Definition set_responses v s :=
  let '(State a b c d e f g h i j k l _) := s in State a b c d e f g h i j k l v.

(** The module as it is loaded: no client, nothing ready, no code. *)
Definition initial : state :=
  State None false None 0 false 0 0 [] [] [] [] false [].

(** ** Calls on the surroundings *)

(** [cleanSession] (lines 32-40) starts [fs.rm] on the session directory and
    waits for it; an error is logged and swallowed (line 37), so the caller
    goes on whichever way the removal settles. *)
Definition cleanSession (s : state) : state :=
  set_rmCalls (S (rmCalls s)) s.

Definition destroy (c : nat) (s : state) : state :=
  set_destroyCalls (destroyCalls s ++ [c]) s.

Definition logout (c : nat) (s : state) : state :=
  set_logoutCalls (logoutCalls s ++ [c]) s.

(** [setTimeout(() => initializeClient(), ms)] *)
Definition setTimeout (ms : N) (s : state) : state :=
  set_timers (timers s ++ [ms]) s.

(** [res.status(code).json(fields)] *)
Definition respond (r : response) (s : state) : state :=
  set_responses (responses s ++ [r]) s.

(** ** initializeClient (lines 83-170) *)

(** Lines 109-160: a new client replaces the current one, the handlers are
    registered on it, and [initialize()] is called and awaited. *)
Definition initializeClient_create (s : state) : state * list frame :=
  (set_created (S (created s)) (set_client (Some (created s)) s),
   [IC_initialize]).

(** Lines 95-106: the lock is taken, the attempt counted, and the previous
    client, when there is one, destroyed. *)
Definition initializeClient_lock (s : state) : state * list frame :=
  let s1 := set_initializationAttempts (S (initializationAttempts s))
              (set_isInitializing true s) in
  match client s1 with
  | Some c => (destroy c s1, [IC_destroy])
  | None => initializeClient_create s1
  end.

(** Lines 84-93: the re-entrancy guard, then the attempt ceiling. *)
Definition initializeClient (s : state) : state * list frame :=
  if isInitializing s then (s, [])
  else if MAX_INIT_ATTEMPTS <=? initializationAttempts s
       then (cleanSession s, [IC_clean])
       else initializeClient_lock s.

(** Lines 161-169: [initialize()] was rejected. *)
Definition initializeClient_catch (s : state) : state :=
  let s1 := set_isInitializing false s in
  if initializationAttempts s1 <? MAX_INIT_ATTEMPTS
  then setTimeout 5000 s1
  else s1.

(** ** Event handlers (lines 112-157) *)

Inductive event :=
| Qr (qr : string)
| Authenticated
| Ready
| AuthFailure (msg : string)
| Disconnected (reason : string)
| LoadingScreen (percent : nat) (message : string).

Definition on_qr (qr : string) (s : state) : state :=
  set_qrCodeString (Some qr) s.

Definition on_authenticated (s : state) : state :=
  set_qrCodeString None s.

Definition on_ready (s : state) : state :=
  set_isInitializing false
    (set_initializationAttempts 0
       (set_qrCodeString None
          (set_isClientReady true s))).

Definition on_auth_failure (s : state) : state * list frame :=
  let s1 := set_isInitializing false (set_isClientReady false s) in
  if initializationAttempts s1 <? MAX_INIT_ATTEMPTS
  then (cleanSession s1, [AF_clean])
  else (s1, []).

Definition on_disconnected (reason : string) (s : state) : state :=
  let s1 := set_isClientReady false s in
  if bool_decide (reason = "LOGOUT") then s1 else setTimeout 10000 s1.

Definition handle (e : event) (s : state) : state * list frame :=
  match e with
  | Qr qr => (on_qr qr s, [])
  | Authenticated => (on_authenticated s, [])
  | Ready => (on_ready s, [])
  | AuthFailure _ => on_auth_failure s
  | Disconnected reason => (on_disconnected reason s, [])
  | LoadingScreen _ _ => (s, [])
  end.

(** ** Readiness middleware (lines 173-182) *)

(** What [x ? a : b] tests when [x] is [null] or a string: the empty string
    is as false as [null]. *)
Definition truthy (x : option string) : bool :=
  match x with
  | Some c => negb (bool_decide (c = EmptyString))
  | None => false
  end.

Definition json_of (x : option string) : json :=
  match x with
  | Some c => JStr c
  | None => JNull
  end.

Definition notReady (s : state) : response :=
  Response 503
    [("error", JStr "WhatsApp client not ready");
     ("qrCode", json_of (qrCodeString s));
     ("message", JStr (if truthy (qrCodeString s)
                       then "Please scan QR code"
                       else "Client initializing..."))].

(** [next] is the rest of the route. *)
Definition requireClientReady (next : state -> state * list frame)
    (s : state) : state * list frame :=
  if negb (isClientReady s) then (respond (notReady s) s, []) else next s.

(** ** Routes (lines 190-254) and the error middleware (lines 594-601) *)

(** [now] is what [new Date().toISOString()] gives in the running task. *)
Definition acknowledge (message now : string) : response :=
  Response 200 [("message", JStr message); ("timestamp", JStr now)].

Definition internalError (message now : string) : response :=
  Response 500
    [("error", JStr "Internal server error");
     ("message", JStr message);
     ("timestamp", JStr now)].

Definition healthStatus (s : state) : string :=
  if isClientReady s then "ready"
  else if isInitializing s then "initializing" else "not_ready".

Definition health (now : string) (s : state) : response :=
  Response 200
    [("status", JStr (healthStatus s));
     ("qrCode", json_of (qrCodeString s));
     ("timestamp", JStr now);
     ("initializationAttempts", JNum (initializationAttempts s));
     ("maxAttempts", JNum MAX_INIT_ATTEMPTS);
     ("isInitializing", JBool (isInitializing s))].

(** Lines 215-216 of POST /restart: [initializeClient] is called and
    awaited, then the acknowledgement is sent. *)
Definition restart_initialize (now : string) (s : state)
    : state * list frame :=
  match initializeClient s with
  | (s1, []) => (respond (acknowledge "Client restart initiated" now) s1, [])
  | (s1, ks) => (s1, ks ++ [RS_init])
  end.

(** Lines 203-213 of POST /restart. *)
Definition restart (now : string) (s : state) : state * list frame :=
  let s1 := set_initializationAttempts 0 (set_isClientReady false s) in
  match client s1 with
  | Some c => (destroy c s1, [RS_destroy])
  | None => restart_initialize now s1
  end.

(** Lines 231-238 of POST /clean-session, from the call of [cleanSession]
    on. *)
Definition cleanSession_route_erase (s : state) : state * list frame :=
  (cleanSession s, [CS_clean]).

Definition cleanSession_route_finish (now : string) (s : state) : state :=
  respond (acknowledge "Session cleaned and client reinitialized" now)
    (setTimeout 2000
       (set_initializationAttempts 0
          (set_isClientReady false s))).

Definition cleanSession_route (s : state) : state * list frame :=
  match client s with
  | Some c => (destroy c s, [CS_destroy])
  | None => cleanSession_route_erase s
  end.

(** POST /logout behind the middleware (lines 242-246).  Were [client] still
    [null], [client.logout()] would throw a TypeError, which [asyncHandler]
    hands to the error middleware like any rejection. *)
Definition logout_route (now : string) (s : state) : state * list frame :=
  match client s with
  | Some c => (logout c s, [LO_logout])
  | None =>
      (respond
         (internalError "Cannot read properties of null (reading 'logout')"
            now) s, [])
  end.

Definition logout_settled (o : outcome) (now : string) (s : state) : state :=
  match o with
  | Resolved =>
      respond (acknowledge "Logged out successfully" now)
        (set_isClientReady false s)
  | Rejected message => respond (internalError message now) s
  end.

Definition qr_route (s : state) : response :=
  if isClientReady s
  then Response 200 [("message", JStr "Client already authenticated")]
  else Response 200 [("qrCode", json_of (qrCodeString s))].

Inductive request :=
| GetHealth
| PostRestart
| PostCleanSession
| PostLogout
| GetQr.

Definition route (r : request) (now : string) (s : state)
    : state * list frame :=
  match r with
  | GetHealth => (respond (health now s) s, [])
  | PostRestart => restart now s
  | PostCleanSession => cleanSession_route s
  | PostLogout => requireClientReady (logout_route now) s
  | GetQr => (respond (qr_route s) s, [])
  end.

(** ** Resuming a suspended call chain *)

(** The frame on top goes on from its [await] with the outcome [o]; it
    either waits again (the frames it returns) or is done ([[]]). *)
Definition resume (k : frame) (o : outcome) (now : string) (s : state)
    : state * list frame :=
  match k with
  | IC_clean => initializeClient_lock (set_initializationAttempts 0 s)
  | IC_destroy => initializeClient_create s
  | IC_initialize =>
      match o with
      | Resolved => (s, [])
      | Rejected _ => (initializeClient_catch s, [])
      end
  | AF_clean => (setTimeout 5000 s, [])
  | RS_destroy => restart_initialize now s
  | RS_init => (respond (acknowledge "Client restart initiated" now) s, [])
  | CS_destroy => cleanSession_route_erase s
  | CS_clean => (cleanSession_route_finish now s, [])
  | LO_logout => (logout_settled o now s, [])
  | SS_init => (set_listening true s, [])
  end.

(** A frame that is done hands over to its caller, whose [await] of an
    [async] function of this file always resolves. *)
Fixpoint unwind (stack : list frame) (o : outcome) (now : string)
    (s : state) : state * list frame :=
  match stack with
  | [] => (s, [])
  | k :: callers =>
      match resume k o now s with
      | (s1, []) => unwind callers Resolved now s1
      | (s1, ks) => (s1, ks ++ callers)
      end
  end.

(** A call chain that waits is kept as a task. *)
Definition spawn (p : state * list frame) : state :=
  match p with
  | (s, []) => s
  | (s, ks) => set_tasks (tasks s ++ [ks]) s
  end.

(** ** The event loop *)

Inductive action :=
| Emit (c : nat) (e : event)       (* client [c] emits [e]                 *)
| Fire (i : nat)                   (* the [i]-th armed timer goes off      *)
| Settle (i : nat) (o : outcome)   (* what the [i]-th task awaits settles  *)
| Http (r : request).              (* a request arrives                    *)

(** One task of the event loop; [None] when the environment cannot do
    [a]: only a client that was created emits, only an armed timer fires,
    only a waiting task settles, and requests are served once [app.listen]
    has run.  Beyond that the environment is free: timers go off in any
    order, a client may emit any event at any time, also after its
    [destroy()] (its handlers stay registered and write the same module
    variables), so what holds of every run holds of the runs the real
    surroundings produce. *)
Definition step (now : string) (a : action) (s : state) : option state :=
  match a with
  | Emit c e =>
      if c <? created s then Some (spawn (handle e s)) else None
  | Fire i =>
      match timers s !! i with
      | Some _ =>
          Some (spawn (initializeClient (set_timers (delete i (timers s)) s)))
      | None => None
      end
  | Settle i o =>
      match tasks s !! i with
      | Some stack =>
          Some (spawn (unwind stack o now (set_tasks (delete i (tasks s)) s)))
      | None => None
      end
  | Http r =>
      if listening s then Some (spawn (route r now s)) else None
  end.

Fixpoint run (trace : list (string * action)) (s : state) : option state :=
  match trace with
  | [] => Some s
  | (now, a) :: rest =>
      match step now a s with
      | Some s1 => run rest s1
      | None => None
      end
  end.

(** [startServer] (lines 604-625): the first [initializeClient] is awaited
    before [app.listen].  [ensureDirectories] comes first and touches none
    of the variables; were it to fail, the process would exit.  The signal
    handlers of lines 628-651 end the process and are left out. *)
Definition startServer (s : state) : state :=
  spawn (match initializeClient s with
         | (s1, []) => (set_listening true s1, [])
         | (s1, ks) => (s1, ks ++ [SS_init])
         end).

Definition booted : state := startServer initial.

(** ** Vocabulary of the properties *)

(** The five module variables of lines 43-48 taken together. *)
Definition lifecycle (s : state)
    : option nat * bool * option string * nat * bool :=
  (client s, isClientReady s, qrCodeString s, initializationAttempts s,
   isInitializing s).

Definition bounded (s : state) : Prop :=
  initializationAttempts s <= MAX_INIT_ATTEMPTS.

(** [client] is no longer [null]. *)
Definition has_client (s : state) : Prop :=
  is_Some (client s).

(** What the environment does by itself, with no event of a client and no
    request of an operator. *)
Definition automatic (a : action) : bool :=
  match a with
  | Fire _ | Settle _ _ => true
  | Emit _ _ | Http _ => false
  end.

(** The code an observer of the events expects to be current. *)
Definition qr_after (a : action) (q : option string) : option string :=
  match a with
  | Emit _ (Qr qr) => Some qr
  | Emit _ Authenticated | Emit _ Ready => None
  | _ => q
  end.

Definition qr_of_trace (trace : list (string * action)) (q : option string)
    : option string :=
  foldl (fun q na => qr_after na.2 q) q trace.

(** Three authentication failures in a row, each retry taken when its timer
    is armed: the removal of the session directory settles ([o1], [o3]), the
    timer fires, the destruction of the previous client settles ([o2],
    [o4]), and the new client fails in its turn.  The [initialize()] calls
    are left waiting. *)
Definition three_failures (m1 m2 m3 : string) (o1 o2 o3 o4 : outcome)
    (now : string) : list (string * action) :=
  [(now, Emit 0 (AuthFailure m1)); (now, Settle 1 o1);
   (now, Fire 0); (now, Settle 1 o2);
   (now, Emit 1 (AuthFailure m2)); (now, Settle 2 o3);
   (now, Fire 0); (now, Settle 2 o4);
   (now, Emit 2 (AuthFailure m3))].

(** Where [three_failures] ends. *)
Definition exhausted : state :=
  State (Some 2) false None 3 false 3 2 [0; 1] [] []
    [[IC_initialize; SS_init]; [IC_initialize]; [IC_initialize]] false [].

(** [three_failures] with every [initialize()] resolved before its client
    fails. *)
Definition exhausted_listening : state :=
  State (Some 2) false None 3 false 3 2 [0; 1] [] [] [] true [].

(** A call chain that waits for [initialize()] and for nothing else: started
    by a timer, by [startServer] or by POST /restart. *)
Definition awaits_initialize (stack : list frame) : bool :=
  match stack with
  | [IC_initialize] | [IC_initialize; SS_init] | [IC_initialize; RS_init] =>
      true
  | _ => false
  end.

(** The other call chains that wait. *)
Definition others (stacks : list (list frame)) : list (list frame) :=
  filter (fun stack => awaits_initialize stack = false) stacks.

(** Where the retry policy stands: the client is not ready, and the lock,
    the counter, the calls of [cleanSession], the clients made, the current
    client, the armed timers and the call chains that wait for something
    other than [initialize()] are as given. *)
Definition phase (lock : bool) (k rm n : nat) (cl : option nat)
    (armed : list N) (busy : list (list frame)) (s : state) : Prop :=
  isClientReady s = false /\
  isInitializing s = lock /\
  initializationAttempts s = k /\
  rmCalls s = rm /\
  created s = n /\
  client s = cl /\
  timers s = armed /\
  others (tasks s) = busy.


(** The steps of a run of authentication failures: an [initialize()] that
    was waiting resolves; a client reports an authentication failure; the
    removal of the session awaited by that handler settles; a timer goes
    off; the destruction awaited by [initializeClient] settles. *)
Definition resolves (s s' : state) : Prop :=
  exists now i stack,
    tasks s !! i = Some stack /\
    awaits_initialize stack = true /\
    step now (Settle i Resolved) s = Some s'.

Definition fails (s s' : state) : Prop :=
  exists now c msg, step now (Emit c (AuthFailure msg)) s = Some s'.

Definition erased (s s' : state) : Prop :=
  exists now i o,
    tasks s !! i = Some [AF_clean] /\ step now (Settle i o) s = Some s'.

Definition fires (s s' : state) : Prop :=
  exists now i, step now (Fire i) s = Some s'.

Definition destroyed (s s' : state) : Prop :=
  exists now i o,
    tasks s !! i = Some [IC_destroy] /\ step now (Settle i o) s = Some s'.

(** Any number of [initialize()] calls resolve. *)
Inductive meanwhile : relation state :=
| meanwhile_nothing s : meanwhile s s
| meanwhile_resolves s between s' :
    resolves s between -> meanwhile between s' -> meanwhile s s'.

Definition andthen (R S : relation state) : relation state :=
  fun s s' => exists between, R s between /\ S between s'.

(** An authentication failure followed by its retry, and three failures in
    a row with the retries between them; wherever something is awaited,
    [initialize()] calls that wait may resolve. *)
Definition failure_with_retry : relation state :=
  andthen fails
    (andthen meanwhile
       (andthen erased
          (andthen meanwhile
             (andthen fires
                (andthen meanwhile
                   (andthen destroyed meanwhile)))))).

Definition three_consecutive_failures : relation state :=
  andthen meanwhile
    (andthen failure_with_retry
       (andthen failure_with_retry
          (andthen fails meanwhile))).


(** The codes of the [qr] events of a run are one-time codes, not the empty
    string. *)
Definition codes_nonempty (trace : list (string * action)) : Prop :=
  Forall (fun na => match na.2 with
                    | Emit _ (Qr code) => code <> EmptyString
                    | _ => True
                    end) trace.

(** States met along the way.  [initialize()] of the first client has
    resolved, the server listens, and no event has come:
    [run [(_, Settle 0 Resolved)] booted]. *)
Definition unauthenticated : state :=
  State (Some 0) false None 1 true 1 0 [] [] [] [] true [].

(** ... then [qr("ABC123")]. *)
Definition scanning : state :=
  State (Some 0) false (Some "ABC123") 1 true 1 0 [] [] [] [] true [].

(** ... then [authenticated] and [ready]. *)
Definition connected : state :=
  State (Some 0) true None 0 false 1 0 [] [] [] [] true [].

(** The first client disconnects while it initializes:
    [run [(_, Emit 0 (Disconnected "NAVIGATION"))] booted]. *)
Definition reconnecting : state :=
  State (Some 0) false None 1 true 1 0 [] [] [10000%N]
    [[IC_initialize; SS_init]] false [].

(** The first client shows a code and then fails to authenticate:
    [run [(_, Emit 0 (Qr "ABC123")); (_, Emit 0 (AuthFailure _))] booted]. *)
Definition failed_with_code : state :=
  State (Some 0) false (Some "ABC123") 1 false 1 1 [] [] []
    [[IC_initialize; SS_init]; [AF_clean]] false [].

(** ** Vocabulary of the further properties *)

(** The current client is the one made last, and [destroy()] and [logout()]
    were only called on clients that were made. *)
Definition newest_is_current (s : state) : Prop :=
  (exists n, created s = S n /\ client s = Some n) /\
  Forall (fun c => c < created s) (destroyCalls s) /\
  Forall (fun c => c < created s) (logoutCalls s).

#[global] Instance frame_eq_dec : EqDecision frame.
Proof. solve_decision. Defined.

(** The frames of a route that has not answered yet. *)
Definition answering (k : frame) : bool :=
  match k with
  | RS_destroy | RS_init | CS_destroy | CS_clean | LO_logout => true
  | IC_clean | IC_destroy | IC_initialize | AF_clean | SS_init => false
  end.

(** The requests a call chain, and the tasks together, have still to
    answer. *)
Definition owed (stack : list frame) : nat :=
  length (filter (fun k => answering k = true) stack).

Definition owed_all (stacks : list (list frame)) : nat :=
  foldr (fun stack n => owed stack + n) 0 stacks.

(** The requests served in a run. *)
Definition served (a : action) : nat :=
  match a with
  | Http _ => 1
  | Emit _ _ | Fire _ | Settle _ _ => 0
  end.

Definition requests (trace : list (string * action)) : nat :=
  foldr (fun na n => served na.2 + n) 0 trace.

(** The call chain of [startServer] while the first [initialize()] is
    awaited, and the state of a server that has not begun to listen: that
    chain waits, and nothing was answered or is owed. *)
Definition startup : list frame := [IC_initialize; SS_init].

Definition starting (s : state) : Prop :=
  listening s = false /\
  startup ∈ tasks s /\
  responses s = [] /\
  owed_all (tasks s) = 0.

(** What a function of the routes has answered so far and still owes. *)
Definition balance (p : state * list frame) : nat :=
  length (responses p.1) + owed p.2.

(** The third client of [exhausted] reports two disconnections:
    [run [(_, Emit 2 (Disconnected "NAVIGATION"));
          (_, Emit 2 (Disconnected "CONFLICT"))] exhausted]. *)
Definition twice_disconnected : state :=
  State (Some 2) false None 3 false 3 2 [0; 1] [] [10000%N; 10000%N]
    [[IC_initialize; SS_init]; [IC_initialize]; [IC_initialize]] false [].

(** * The routes behind the middleware (lines 256-592)

    These routes read [client] and none of the other variables.  What they
    await from the capability is an argument here, fulfilled with a value or
    rejected with the message of an error; the request parameters are the
    strings of [req.query], absent or present. *)

Inductive awaited (A : Type) :=
| Fulfilled (value : A)
| RejectedWith (message : string).
Arguments Fulfilled {A} value.
Arguments RejectedWith {A} message.

(** What a route answers: [res.json(value)], or
    [res.status(code).json({ error })], or an error thrown or a rejection
    not caught, which [asyncHandler] hands to the error middleware. *)
Inductive reply (A : Type) :=
| Json (value : A)
| Refused (code : nat) (error : string)
| Thrown (message : string).
Arguments Json {A} value.
Arguments Refused {A} code error.
Arguments Thrown {A} message.

(** The numbers the routes compute with: integers, and the [NaN] that
    [parseInt] gives for a string with no leading number.  JavaScript
    computes in doubles, which are exact on integers up to 2^53 in
    magnitude; sums and differences beyond that, which [num_add] and
    [num_sub] give exactly and the code rounds, are outside what is stated
    of the routes below. *)
Inductive num :=
| NaN
| Int (z : Z).

Definition num_add (x y : num) : num :=
  match x, y with
  | Int a, Int b => Int (a + b)
  | _, _ => NaN
  end.

Definition num_sub (x y : num) : num :=
  match x, y with
  | Int a, Int b => Int (a - b)
  | _, _ => NaN
  end.

Definition Math_max (x y : num) : num :=
  match x, y with
  | Int a, Int b => Int (Z.max a b)
  | _, _ => NaN
  end.

Definition Math_min (x y : num) : num :=
  match x, y with
  | Int a, Int b => Int (Z.min a b)
  | _, _ => NaN
  end.

(** [Array.prototype.slice]: [NaN] counts as 0, a negative index counts
    from the end, and both ends are clamped to the array. *)
Definition relative (i : num) (len : Z) : Z :=
  match i with
  | NaN => 0
  | Int z => if (z <? 0)%Z then Z.max (len + z) 0 else Z.min z len
  end.

Definition slice {A} (l : list A) (start finish : num) : list A :=
  let len := Z.of_nat (length l) in
  let k := relative start len in
  let final := relative finish len in
  take (Z.to_nat (final - k)) (drop (Z.to_nat k) l).

(** [Array.prototype.findIndex]: the first index whose element passes, or
    -1. *)
Fixpoint findIndex {A} (p : A -> bool) (l : list A) : Z :=
  match l with
  | [] => -1
  | x :: rest =>
      if p x then 0
      else let i := findIndex p rest in
           if (i =? -1)%Z then -1 else (i + 1)%Z
  end.

(** [String.prototype.includes] *)
Fixpoint includes (s p : string) : bool :=
  String.prefix p s ||
  match s with
  | EmptyString => false
  | String _ rest => includes rest p
  end.

(** The chat id the lookup routes build from [number] (lines 344, 369,
    402), and the one the sending routes build from [to] (lines 461, 486,
    516). *)
Definition chatIdOfNumber (number : string) : string :=
  if includes number "@c.us" then number else number +:+ "@c.us".

Definition chatIdOfRecipient (to : string) : string :=
  if includes to "@c.us" || includes to "@g.us" then to else to +:+ "@c.us".

(** The fields of a message and of a chat of the capability that the
    routes read. *)
Record message := Message {
  msg_id : string;             (* id._serialized *)
  msg_body : string;
  msg_type : string;
  msg_timestamp : Z;
  msg_fromMe : bool;
  msg_author : option string;
  msg_hasMedia : bool;
  msg_isForwarded : bool;
  msg_isStarred : bool
}.

Record chat := Chat {
  chat_id : string;            (* id._serialized *)
  chat_name : string;
  chat_isGroup : bool;
  chat_isReadOnly : bool;
  chat_unreadCount : Z;
  chat_timestamp : Z;
  chat_lastMessage : option message;
  chat_participants : option (list string)   (* their id._serialized *)
}.

(** The objects the routes build. *)
Record context_entry := ContextEntry {
  ce_id : string;
  ce_body : string;
  ce_type : string;
  ce_timestamp : Z;
  ce_fromMe : bool;
  ce_isTarget : bool
}.

Record context_body := ContextBody {
  context : list context_entry;
  targetMessageIndex : num
}.

Record listed_message := ListedMessage {
  lm_id : string;
  lm_body : string;
  lm_type : string;
  lm_timestamp : Z;
  lm_fromMe : bool;
  lm_author : option string;
  lm_hasMedia : bool;
  lm_isForwarded : bool;
  lm_isStarred : bool
}.

Record chat_info := ChatInfo {
  ci_id : string;
  ci_name : string;
  ci_isGroup : bool;
  ci_participantCount : Z
}.

Record messages_body := MessagesBody {
  messages : list listed_message;
  chatInfo : chat_info
}.

Record last_message := LastMessage {
  last_body : string;
  last_timestamp : Z;
  last_fromMe : bool
}.

Record listed_chat := ListedChat {
  lc_id : string;
  lc_name : string;
  lc_isGroup : bool;
  lc_isReadOnly : bool;
  lc_unreadCount : Z;
  lc_timestamp : Z;
  lc_lastMessage : option last_message
}.

Record chats_body := ChatsBody {
  chats : list listed_chat;
  count : Z
}.

Section Routes.

(** [parseInt], on the strings of a query. *)
Variable parseInt : string -> num.

(** A parameter with a numeric default: [parseInt] leaves the default as it
    is. *)
Definition parsed (default : Z) (x : option string) : num :=
  match x with
  | Some text => parseInt text
  | None => Int default
  end.

(** GET /get_message_context (lines 422-451).  [fetched] is what
    [getChatById] and then [fetchMessages] give. *)
Definition contextEntry (messageId : string) (msg : message) : context_entry :=
  ContextEntry (msg_id msg) (msg_body msg) (msg_type msg) (msg_timestamp msg)
    (msg_fromMe msg) (bool_decide (msg_id msg = messageId)).

Definition get_message_context (chatId messageId before after : option string)
    (fetched : awaited (list message)) : reply context_body :=
  if negb (truthy chatId) || negb (truthy messageId)
  then Refused 400 "chatId and messageId parameters are required"
  else
    match fetched with
    | RejectedWith message => Thrown message
    | Fulfilled messages =>
        let messageId := default EmptyString messageId in
        let messageIndex :=
          findIndex (fun m => bool_decide (msg_id m = messageId)) messages in
        if (messageIndex =? -1)%Z
        then Refused 404 "Message not found"
        else
          let startIndex :=
            Math_max (Int 0) (num_sub (Int messageIndex) (parsed 5 before)) in
          let endIndex :=
            Math_min (Int (Z.of_nat (length messages)))
              (num_add (num_add (Int messageIndex) (parsed 5 after)) (Int 1))
          in
          Json (ContextBody
                  (map (contextEntry messageId)
                     (slice messages startIndex endIndex))
                  (num_sub (Int messageIndex) startIndex))
    end.

(** GET /list_messages (lines 290-334).  [fetched] is the chat and the
    messages that [getChatById] and [fetchMessages] give. *)
Definition listedMessage (msg : message) : listed_message :=
  ListedMessage (msg_id msg) (msg_body msg) (msg_type msg) (msg_timestamp msg)
    (msg_fromMe msg) (msg_author msg) (msg_hasMedia msg)
    (msg_isForwarded msg) (msg_isStarred msg).

Definition participantCount (c : chat) : Z :=
  match chat_participants c with
  | Some participants => Z.of_nat (length participants)
  | None => 0
  end.

Definition list_messages (chatId type fromMe : option string)
    (fetched : awaited (chat * list message)) : reply messages_body :=
  if negb (truthy chatId)
  then Refused 400 "chatId parameter is required"
  else
    match fetched with
    | RejectedWith message => Thrown message
    | Fulfilled (c, messages) =>
        let filtered :=
          if truthy type
          then filter (fun msg => msg_type msg = default EmptyString type)
                 messages
          else messages in
        let filtered :=
          match fromMe with
          | Some text =>
              let isFromMe := bool_decide (text = "true") in
              filter (fun msg => msg_fromMe msg = isFromMe) filtered
          | None => filtered
          end in
        Json (MessagesBody (map listedMessage filtered)
                (ChatInfo (chat_id c) (chat_name c) (chat_isGroup c)
                   (participantCount c)))
    end.

(** GET /get_chats (lines 565-592) *)
Definition lastMessage (c : chat) : option last_message :=
  match chat_lastMessage c with
  | Some msg =>
      Some (LastMessage (msg_body msg) (msg_timestamp msg) (msg_fromMe msg))
  | None => None
  end.

Definition listedChat (c : chat) : listed_chat :=
  ListedChat (chat_id c) (chat_name c) (chat_isGroup c) (chat_isReadOnly c)
    (chat_unreadCount c) (chat_timestamp c) (lastMessage c).

Definition get_chats (limit unreadOnly : option string)
    (fetched : awaited (list chat)) : reply chats_body :=
  match fetched with
  | RejectedWith message => Thrown message
  | Fulfilled all =>
      let filtered :=
        if bool_decide (unreadOnly = Some "true")
        then filter (fun c => (0 < chat_unreadCount c)%Z) all
        else all in
      let processedChats :=
        map listedChat (slice filtered (Int 0) (parsed 50 limit)) in
      Json (ChatsBody processedChats (Z.of_nat (length processedChats)))
  end.

End Routes.

(** GET /get_contact_chats (lines 362-392): the direct chat with the
    contact and the groups the contact is in. *)
Record contact_chat := ContactChat {
  cc_id : string;
  cc_name : string;
  cc_isGroup : bool;
  cc_participantCount : Z;
  cc_unreadCount : Z;
  cc_lastMessage : option (string * Z)     (* body, timestamp *)
}.

Record contact_chats_body := ContactChatsBody {
  relevantChats : list contact_chat;
  relevantCount : Z
}.

Definition involves (targetId : string) (c : chat) : bool :=
  match chat_isGroup c, chat_participants c with
  | true, Some participants =>
      existsb (fun p => bool_decide (p = targetId)) participants
  | _, _ => bool_decide (chat_id c = targetId)
  end.

Definition contactChat (c : chat) : contact_chat :=
  ContactChat (chat_id c) (chat_name c) (chat_isGroup c) (participantCount c)
    (chat_unreadCount c)
    (match chat_lastMessage c with
     | Some msg => Some (msg_body msg, msg_timestamp msg)
     | None => None
     end).

Definition get_contact_chats (number : option string)
    (fetched : awaited (list chat)) : reply contact_chats_body :=
  if negb (truthy number)
  then Refused 400 "number parameter is required"
  else
    match fetched with
    | RejectedWith message => Thrown message
    | Fulfilled allChats =>
        let targetId := chatIdOfNumber (default EmptyString number) in
        let relevant :=
          map contactChat
            (filter (fun c => involves targetId c = true) allChats) in
        Json (ContactChatsBody relevant (Z.of_nat (length relevant)))
    end.

(** GET /download_media (lines 528-562).  The first statement after the
    check of the parameters calls [ensureDownloadsDir], a name the file
    never defines: the call throws a ReferenceError, which [asyncHandler]
    hands to the error middleware, and nothing below it runs, so the route
    has no value to answer with. *)
Definition download_media (chatId messageId : option string)
    : reply Empty_set :=
  if negb (truthy chatId) || negb (truthy messageId)
  then Refused 400 "chatId and messageId parameters are required"
  else Thrown "ensureDownloadsDir is not defined".

(** The answer of the route as it is sent, and the route behind the
    middleware; it awaits nothing before it answers. *)
Definition sent (now : string) (r : reply Empty_set) : response :=
  match r with
  | Json value => match value with end
  | Refused code error => Response code [("error", JStr error)]
  | Thrown message => internalError message now
  end.

Definition download_media_route (chatId messageId : option string)
    (now : string) (s : state) : state * list frame :=
  requireClientReady
    (fun s => (respond (sent now (download_media chatId messageId)) s, [])) s.

(** Messages and a reader of decimal digits to try the routes on. *)
Definition textMessage (id body : string) (fromMe : bool) : message :=
  Message id body "chat" 1700000000 fromMe None false false false.

Definition sample_messages : list message :=
  [textMessage "m1" "hello" false; textMessage "m2" "hi" true;
   textMessage "m3" "how are you" false; textMessage "m4" "fine" true].

Definition digit_or_NaN (text : string) : num :=
  if bool_decide (text = "1") then Int 1
  else if bool_decide (text = "2") then Int 2
  else NaN.

Definition sample_chats : list chat :=
  [Chat "491511@c.us" "Ada" false false 2 1700000300 None None;
   Chat "1203630@g.us" "Team" true false 0 1700000200 None
     (Some ["491511@c.us"; "491522@c.us"]);
   Chat "491522@c.us" "Bob" false false 1 1700000100 None None].

(** * Properties *)

Create HintDb lifecycle.

#[local] Hint Unfold
  handle on_qr on_authenticated on_ready on_auth_failure on_disconnected
  route requireClientReady restart restart_initialize
  cleanSession_route cleanSession_route_erase cleanSession_route_finish
  logout_route logout_settled
  resume initializeClient initializeClient_lock initializeClient_create
  initializeClient_catch
  cleanSession destroy logout setTimeout respond : lifecycle.

(** Opens the functions of the model on a state given by its fields and
    splits on every test they make. *)
Ltac open_state s :=
  destruct s; autounfold with lifecycle in *; cbn in *; try done;
  repeat (case_match; cbn in *; simplify_eq; try done).

(** A task list grows at its end, so a task that was just added sits at the
    index that is the former length. *)
Lemma lookup_last {A} (l : list A) (x : A) : (l ++ [x]) !! length l = Some x.
Proof. by rewrite list_lookup_middle. Qed.

Lemma delete_last {A} (l : list A) (x : A) : delete (length l) (l ++ [x]) = l.
Proof.
  induction l as [|y l IH]; [done|]. simpl. by f_equal.
Qed.

(** ** The attempt ceiling *)

Section AttemptCeiling.

Lemma bounded_spawn p : bounded p.1 -> bounded (spawn p).
Proof. destruct p as [s [|k ks]]; [done|]. by destruct s. Qed.

Lemma bounded_lock s :
  initializationAttempts s < MAX_INIT_ATTEMPTS ->
  bounded (initializeClient_lock s).1.
Proof. unfold bounded. intros Hs. open_state s. Qed.

Lemma bounded_initializeClient s :
  bounded s -> bounded (initializeClient s).1.
Proof.
  intros Hs. unfold initializeClient.
  destruct (isInitializing s); [done|].
  destruct (Nat.leb_spec MAX_INIT_ATTEMPTS (initializationAttempts s)).
  - by destruct s.
  - by apply bounded_lock.
Qed.

Lemma bounded_handle e s : bounded s -> bounded (handle e s).1.
Proof.
  unfold bounded, MAX_INIT_ATTEMPTS. intros Hs.
  destruct e; open_state s; lia.
Qed.

Lemma bounded_restart_initialize now s :
  bounded s -> bounded (restart_initialize now s).1.
Proof.
  intros Hs. apply bounded_initializeClient in Hs.
  unfold restart_initialize.
  destruct (initializeClient s) as [s1 [|k ks]]; [|done].
  by destruct s1.
Qed.

Lemma bounded_route r now s : bounded s -> bounded (route r now s).1.
Proof.
  intros Hs. destruct r; cbn.
  - by destruct s.
  - unfold restart.
    destruct (client _) eqn:Hc.
    + destruct s. unfold bounded. cbn. lia.
    + apply bounded_restart_initialize. destruct s. unfold bounded. cbn. lia.
  - unfold bounded in *. open_state s.
  - unfold bounded in *. open_state s.
  - by destruct s.
Qed.

(** Whatever the state in which a frame goes on, it leaves the counter
    within the ceiling: the frame of line 91 sets it to 0 before
    counting. *)
Lemma bounded_resume k o now s : bounded s -> bounded (resume k o now s).1.
Proof.
  intros Hs. destruct k; cbn.
  - apply bounded_lock. destruct s. cbn. unfold MAX_INIT_ATTEMPTS. lia.
  - by destruct s.
  - unfold bounded in *. open_state s.
  - by destruct s.
  - by apply bounded_restart_initialize.
  - by destruct s.
  - by destruct s.
  - destruct s. unfold bounded. cbn. lia.
  - unfold bounded in *. open_state s.
  - by destruct s.
Qed.

Lemma bounded_unwind stack o now s :
  bounded s -> bounded (unwind stack o now s).1.
Proof.
  revert o s. induction stack as [|k callers IH]; intros o s Hs; [done|].
  cbn. pose proof (bounded_resume k o now s Hs) as Hk.
  destruct (resume k o now s) as [s1 [|k1 ks]]; cbn in *; auto.
Qed.

Lemma bounded_set_timers v s : bounded s -> bounded (set_timers v s).
Proof. by destruct s. Qed.

Lemma bounded_set_tasks v s : bounded s -> bounded (set_tasks v s).
Proof. by destruct s. Qed.

Lemma bounded_step now a s s1 :
  step now a s = Some s1 -> bounded s -> bounded s1.
Proof.
  intros Hstep Hs. unfold step in Hstep.
  repeat case_match; simplify_eq; apply bounded_spawn.
  - by apply bounded_handle.
  - by apply bounded_initializeClient, bounded_set_timers.
  - by apply bounded_unwind, bounded_set_tasks.
  - by apply bounded_route.
Qed.

Lemma bounded_run trace s s1 :
  run trace s = Some s1 -> bounded s -> bounded s1.
Proof.
  revert s. induction trace as [|[now a] rest IH]; intros s Hrun Hs.
  - by simplify_eq/=.
  - cbn in Hrun. destruct (step now a s) as [s2|] eqn:Hstep; [|done].
    eauto using bounded_step.
Qed.

Lemma bounded_booted : bounded booted.
Proof. unfold bounded. cbn. unfold MAX_INIT_ATTEMPTS. lia. Qed.

End AttemptCeiling.

(** ** The current client *)

(** [client] is assigned once per initialization and never set back to
    [null]: from [startServer] on there is always a current client. *)
Section CurrentClient.

Lemma has_client_spawn p : has_client p.1 -> has_client (spawn p).
Proof. destruct p as [s [|k ks]]; [done|]. by destruct s. Qed.

Lemma has_client_initializeClient s :
  has_client s -> has_client (initializeClient s).1.
Proof. unfold has_client. intros Hs. open_state s. Qed.

Lemma has_client_handle e s : has_client s -> has_client (handle e s).1.
Proof. unfold has_client. intros Hs. destruct e; open_state s. Qed.

Lemma has_client_route r now s : has_client s -> has_client (route r now s).1.
Proof. unfold has_client. intros Hs. destruct r; open_state s. Qed.

Lemma has_client_resume k o now s :
  has_client s -> has_client (resume k o now s).1.
Proof. unfold has_client. intros Hs. destruct k; open_state s. Qed.

Lemma has_client_unwind stack o now s :
  has_client s -> has_client (unwind stack o now s).1.
Proof.
  revert o s. induction stack as [|k callers IH]; intros o s Hs; [done|].
  cbn. pose proof (has_client_resume k o now s Hs) as Hk.
  destruct (resume k o now s) as [s1 [|k1 ks]]; cbn in *; auto.
Qed.

Lemma has_client_step now a s s1 :
  step now a s = Some s1 -> has_client s -> has_client s1.
Proof.
  intros Hstep Hs. unfold step in Hstep.
  repeat case_match; simplify_eq; apply has_client_spawn.
  - by apply has_client_handle.
  - apply has_client_initializeClient. by destruct s.
  - apply has_client_unwind. by destruct s.
  - by apply has_client_route.
Qed.

Lemma has_client_run trace s :
  run trace booted = Some s -> has_client s.
Proof.
  assert (Hgen : forall s0, run trace s0 = Some s ->
                            has_client s0 -> has_client s).
  { induction trace as [|[now a] rest IH]; intros s0 Hrun Hs0.
    - by simplify_eq/=.
    - cbn in Hrun. destruct (step now a s0) as [s2|] eqn:Hstep; [|done].
      eauto using has_client_step. }
  intros Hrun. apply (Hgen booted Hrun). by eexists.
Qed.

End CurrentClient.

(** ** C1: the attempt counter and the session reset *)

(** C1.  After every sequence of events, timers, settlements and requests
    the attempt counter is at most [MAX_INIT_ATTEMPTS].  When
    [initializeClient] is entered with the lock free and the counter at the
    ceiling or beyond, it calls [cleanSession] once and waits, the attempt
    not yet counted; when it goes on from there, in whatever state [s2], the
    counter is first set to 0 and the new attempt makes it 1. *)
Theorem attempts_within_ceiling trace s :
  run trace booted = Some s ->
  initializationAttempts s <= MAX_INIT_ATTEMPTS /\
  (isInitializing s = false ->
   MAX_INIT_ATTEMPTS <= initializationAttempts s ->
   exists s1,
     initializeClient s = (s1, [IC_clean]) /\
     rmCalls s1 = S (rmCalls s) /\
     initializationAttempts s1 = initializationAttempts s /\
     isInitializing s1 = false /\
     created s1 = created s /\
     forall o now s2,
       initializationAttempts (resume IC_clean o now s2).1 = 1 /\
       isInitializing (resume IC_clean o now s2).1 = true).
Proof.
  intros Hrun. split.
  - exact (bounded_run _ _ _ Hrun bounded_booted).
  - intros Hlock Hmax. exists (cleanSession s). repeat split.
    + unfold initializeClient. rewrite Hlock.
      by destruct (Nat.leb_spec MAX_INIT_ATTEMPTS (initializationAttempts s));
        [|lia].
    + by destruct s.
    + by destruct s.
    + by destruct s.
    + by destruct s.
    + open_state s2.
    + open_state s2.
Qed.

Lemma attempts_within_ceiling_witness :
  run (three_failures "a" "b" "c" Resolved Resolved Resolved Resolved "t")
    booted = Some exhausted /\
  isInitializing exhausted = false /\
  MAX_INIT_ATTEMPTS <= initializationAttempts exhausted /\
  initializationAttempts exhausted <= MAX_INIT_ATTEMPTS /\
  exists s1,
    initializeClient exhausted = (s1, [IC_clean]) /\
    rmCalls s1 = 3 /\
    initializationAttempts (resume IC_clean Resolved "t" s1).1 = 1.
Proof.
  destruct (attempts_within_ceiling
              (three_failures "a" "b" "c" Resolved Resolved Resolved Resolved
                 "t")
              exhausted eq_refl) as [Hle Henter].
  destruct (Henter eq_refl (le_n 3)) as (s1 & Hcall & Hrm & _ & _ & _ & Hgo).
  repeat split; try done.
  exists s1. repeat split; try done. apply Hgo.
Defined.

(** ** C5: the re-entrancy guard *)

(** C5.  With the lock held, [initializeClient] returns at once and leaves
    the state as it was: no client is made, none is destroyed, the counter
    and every other variable keep their value, nothing waits.  A retry
    timer that goes off then is disarmed and nothing more. *)
Theorem initializeClient_locked_is_noop s :
  isInitializing s = true ->
  initializeClient s = (s, []) /\
  forall i d now,
    timers s !! i = Some d ->
    exists s1,
      step now (Fire i) s = Some s1 /\
      timers s1 = delete i (timers s) /\
      lifecycle s1 = lifecycle s /\
      created s1 = created s /\
      destroyCalls s1 = destroyCalls s /\
      rmCalls s1 = rmCalls s /\
      tasks s1 = tasks s.
Proof.
  intros Hlock.
  assert (Hnoop : forall t, isInitializing t = true ->
                            initializeClient t = (t, [])).
  { intros t Ht. unfold initializeClient. by rewrite Ht. }
  split; [by apply Hnoop|].
  intros i d now Hi. exists (set_timers (delete i (timers s)) s).
  split.
  - unfold step. rewrite Hi, Hnoop; [done|]. by destruct s.
  - by destruct s.
Qed.

Lemma initializeClient_locked_is_noop_witness :
  run [("t", Emit 0 (Disconnected "NAVIGATION"))] booted = Some reconnecting /\
  isInitializing reconnecting = true /\
  initializeClient reconnecting = (reconnecting, []) /\
  exists s1,
    step "t" (Fire 0) reconnecting = Some s1 /\
    timers s1 = [] /\
    lifecycle s1 = lifecycle reconnecting /\
    created s1 = 1.
Proof.
  destruct (initializeClient_locked_is_noop reconnecting eq_refl)
    as [Hcall Hfire].
  destruct (Hfire 0 10000%N "t" eq_refl)
    as (s1 & Hstep & Htimers & Hvars & Hcreated & _).
  repeat split; try done.
  exists s1. by repeat split.
Defined.

(** ** Phases of the retry policy *)

Section Phases.

#[local] Arguments others : simpl never.

Lemma others_app l1 l2 : others (l1 ++ l2) = others l1 ++ others l2.
Proof. apply filter_app. Qed.

Lemma others_split l i stack :
  l !! i = Some stack ->
  others l
  = others (take i l) ++ others [stack] ++ others (drop (S i) l) /\
  others (delete i l) = others (take i l) ++ others (drop (S i) l).
Proof.
  intros Hi. rewrite delete_take_drop, <- !others_app. split; [|done].
  by rewrite <- (take_drop_middle l i stack Hi) at 1.
Qed.

Lemma others_delete_idle l i stack :
  l !! i = Some stack -> awaits_initialize stack = true ->
  others (delete i l) = others l.
Proof.
  intros Hi Hstack. destruct (others_split l i stack Hi) as [-> ->].
  unfold others at 4. cbn. by rewrite decide_False by congruence.
Qed.

Lemma others_delete_busy l i stack busy :
  l !! i = Some stack -> awaits_initialize stack = false ->
  others l = [busy] ->
  others (delete i l) = [].
Proof.
  intros Hi Hstack Hl. destruct (others_split l i stack Hi) as [Hsplit ->].
  rewrite Hsplit in Hl. unfold others at 2 in Hl. cbn in Hl.
  rewrite decide_True in Hl by done.
  destruct (others (take i l)) as [|x xs]; cbn in Hl.
  - injection Hl as _ Hrest. by rewrite Hrest.
  - injection Hl as _ Hrest. by destruct xs.
Qed.

Lemma others_idle l i stack :
  l !! i = Some stack -> others l = [] -> awaits_initialize stack = true.
Proof.
  intros Hi Hl. destruct (others_split l i stack Hi) as [Hsplit _].
  rewrite Hsplit in Hl. destruct (awaits_initialize stack) eqn:Hs; [done|].
  unfold others at 2 in Hl. cbn in Hl. rewrite decide_True in Hl by done.
  by destruct (others (take i l)).
Qed.

Lemma others_snoc_idle l stack :
  awaits_initialize stack = true -> others (l ++ [stack]) = others l.
Proof.
  intros Hs. rewrite others_app. unfold others at 2. cbn.
  rewrite decide_False by congruence. apply app_nil_r.
Qed.

Lemma others_snoc_busy l stack :
  awaits_initialize stack = false -> others (l ++ [stack]) = others l ++ [stack].
Proof.
  intros Hs. rewrite others_app. unfold others at 2. cbn.
  by rewrite decide_True.
Qed.


(** Opens a phase on a state given by its fields. *)
Ltac open_phase H :=
  destruct H as (? & ? & ? & ? & ? & ? & ? & ?); cbn in *; subst.

Lemma awaits_initialize_cases stack :
  awaits_initialize stack = true ->
  stack = [IC_initialize] \/ stack = [IC_initialize; SS_init] \/
  stack = [IC_initialize; RS_init].
Proof.
  destruct stack as [|[] [|[] [|? ?]]]; cbn; intros; try done; auto.
Qed.

Lemma phase_resolves lock k rm n cl armed busy s s1 :
  resolves s s1 ->
  phase lock k rm n cl armed busy s -> phase lock k rm n cl armed busy s1.
Proof.
  intros (now & i & stack & Hi & Hstack & Hstep) H.
  unfold step in Hstep. rewrite Hi in Hstep. simplify_eq.
  pose proof (others_delete_idle _ _ _ Hi Hstack) as Hothers.
  apply awaits_initialize_cases in Hstack as [->|[->| ->]];
    destruct s; open_phase H; by repeat split.
Qed.

Lemma phase_meanwhile lock k rm n cl armed busy s s1 :
  meanwhile s s1 ->
  phase lock k rm n cl armed busy s -> phase lock k rm n cl armed busy s1.
Proof. induction 1; eauto using phase_resolves. Qed.

Lemma phase_fails_below lock k rm n cl armed busy s s1 :
  fails s s1 ->
  k < MAX_INIT_ATTEMPTS ->
  phase lock k rm n cl armed busy s ->
  phase false k (S rm) n cl armed (busy ++ [[AF_clean]]) s1.
Proof.
  intros (now & c & msg & Hstep) Hk H. unfold step in Hstep.
  case_match; simplify_eq. apply Nat.ltb_lt in Hk.
  destruct s. open_phase H. unfold on_auth_failure. cbn. rewrite Hk. cbn.
  repeat split. by apply others_snoc_busy.
Qed.

Lemma phase_fails_at lock rm n cl armed busy s s1 :
  fails s s1 ->
  phase lock MAX_INIT_ATTEMPTS rm n cl armed busy s ->
  phase false MAX_INIT_ATTEMPTS rm n cl armed busy s1.
Proof.
  intros (now & c & msg & Hstep) H. unfold step in Hstep.
  case_match; simplify_eq. destruct s. open_phase H. by repeat split.
Qed.

Lemma phase_erased lock k rm n cl armed s s1 :
  erased s s1 ->
  phase lock k rm n cl armed [[AF_clean]] s ->
  phase lock k rm n cl (armed ++ [5000%N]) [] s1.
Proof.
  intros (now & i & o & Hi & Hstep) H.
  unfold step in Hstep. rewrite Hi in Hstep. simplify_eq.
  destruct s. open_phase H. cbn. repeat split.
  by eapply others_delete_busy.
Qed.

Lemma phase_fires k rm n c d s s1 :
  fires s s1 ->
  k < MAX_INIT_ATTEMPTS ->
  phase false k rm n (Some c) [d] [] s ->
  phase true (S k) rm n (Some c) [] [[IC_destroy]] s1.
Proof.
  intros (now & i & Hstep) Hk H. unfold step in Hstep.
  destruct s. open_phase H. destruct i as [|i]; [|done]. cbn in Hstep.
  simplify_eq. unfold MAX_INIT_ATTEMPTS in Hk.
  destruct k as [|[|[|k]]]; try lia; cbn;
    repeat split; cbn [tasks]; rewrite others_snoc_busy by done;
    by match goal with H : others _ = [] |- _ => rewrite H end.
Qed.

Lemma phase_destroyed k rm n c s s1 :
  destroyed s s1 ->
  phase true k rm n (Some c) [] [[IC_destroy]] s ->
  phase true k rm (S n) (Some n) [] [] s1.
Proof.
  intros (now & i & o & Hi & Hstep) H.
  unfold step in Hstep. rewrite Hi in Hstep. simplify_eq.
  destruct s. open_phase H. cbn. repeat split. cbn [tasks].
  rewrite others_snoc_idle by done. by eapply others_delete_busy.
Qed.

Lemma phase_failure_with_retry lock k rm n c s s1 :
  failure_with_retry s s1 ->
  k < MAX_INIT_ATTEMPTS ->
  phase lock k rm n (Some c) [] [] s ->
  phase true (S k) (S rm) (S n) (Some n) [] [] s1.
Proof.
  intros (a & Ha & b & Hb & c1 & Hc & d & Hd & e & He & f & Hf & g & Hg & Hh)
    Hk H.
  eapply phase_meanwhile; [done|].
  eapply phase_destroyed; [done|].
  eapply phase_meanwhile; [done|].
  eapply phase_fires; [done|done|].
  eapply phase_meanwhile; [done|].
  eapply (phase_erased _ _ _ _ _ []); [done|].
  eapply phase_meanwhile; [done|].
  by eapply (phase_fails_below _ _ _ _ _ [] []).
Qed.

Lemma phase_automatic rm n cl now a s s1 :
  automatic a = true ->
  step now a s = Some s1 ->
  phase false MAX_INIT_ATTEMPTS rm n cl [] [] s ->
  phase false MAX_INIT_ATTEMPTS rm n cl [] [] s1.
Proof.
  intros Ha Hstep H. destruct a; try done; unfold step in Hstep.
  - destruct s. open_phase H. by destruct i.
  - destruct (tasks s !! i) as [stack|] eqn:Hi; [|done]. simplify_eq.
    assert (Hothers : others (tasks s) = []) by apply H.
    pose proof (others_idle _ _ _ Hi Hothers) as Hstack.
    pose proof (others_delete_idle _ _ _ Hi Hstack) as Hrest.
    apply awaits_initialize_cases in Hstack as [->|[->| ->]];
      destruct o; destruct s; open_phase H; repeat split;
      unfold initializeClient_catch; cbn; by rewrite Hrest.
Qed.

Lemma phase_automatic_run rm n cl trace s s1 :
  Forall (fun na => automatic na.2 = true) trace ->
  run trace s = Some s1 ->
  phase false MAX_INIT_ATTEMPTS rm n cl [] [] s ->
  phase false MAX_INIT_ATTEMPTS rm n cl [] [] s1.
Proof.
  intros Hauto. revert s.
  induction Hauto as [|[now a] rest Ha _ IH]; intros s Hrun Hs.
  - by simplify_eq/=.
  - cbn in Hrun. destruct (step now a s) as [s2|] eqn:Hstep; [|done].
    eauto using phase_automatic.
Qed.

Lemma phase_booted : phase true 1 0 1 (Some 0) [] [] booted.
Proof. by repeat split. Qed.


End Phases.

(** ** C2: authentication failure *)



(** ** C4: disconnection *)



(** ** C3: three authentication failures in a row *)

(** C3, as the specification has it, fails: after the three failures and
    the two retries between them the counter is 3, not 0. *)
Lemma three_failures_counter_not_zero :
  exists s,
    run (three_failures "a" "b" "c" Resolved Resolved Resolved Resolved "t")
      booted = Some s /\
    initializationAttempts s = 3 /\
    initializationAttempts s <> 0.
Proof. exists exhausted. by repeat split. Qed.

(** C3, amended.  Three authentication failures in a row from the first
    initialization, each followed by its retry, whichever clients report
    them, however the awaited removals and destructions settle, and
    whenever the [initialize()] calls that wait resolve in between:
    [cleanSession] has been called twice, the counter stands at
    [MAX_INIT_ATTEMPTS], three clients were made, the lock is free and no
    timer is armed; and whatever the environment does by itself afterwards,
    however the calls that still wait settle, no timer is armed, no client
    is made, [cleanSession] is not called and the counter stays where it
    is. *)
Theorem three_failures_spend_retries s :
  three_consecutive_failures booted s ->
  rmCalls s = 2 /\
  initializationAttempts s = MAX_INIT_ATTEMPTS /\
  timers s = [] /\
  isInitializing s = false /\
  isClientReady s = false /\
  created s = 3 /\
  forall trace s',
    Forall (fun na => automatic na.2 = true) trace ->
    run trace s = Some s' ->
    timers s' = [] /\
    created s' = 3 /\
    rmCalls s' = 2 /\
    initializationAttempts s' = MAX_INIT_ATTEMPTS.
Proof.
  intros (a & Ha & b & Hb & c & Hc & d & Hd & He).
  assert (Hend : phase false MAX_INIT_ATTEMPTS 2 3 (Some 2) [] [] s).
  { eapply phase_meanwhile; [done|].
    eapply phase_fails_at; [done|].
    eapply (phase_failure_with_retry true 2 1 2 1); [done|vm_compute; lia|].
    eapply (phase_failure_with_retry true 1 0 1 0); [done|vm_compute; lia|].
    eapply phase_meanwhile; [done|]. apply phase_booted. }
  pose proof Hend as (Hready & Hlock & Hcount & Hrm & Hcreated & _ & Htimers
                      & _).
  do 6 (split; [done|]).
  intros trace s' Hauto Hrun.
  by destruct (phase_automatic_run _ _ _ _ _ _ Hauto Hrun Hend)
    as (_ & _ & ? & ? & ? & _ & ? & _).
Qed.

Lemma three_failures_spend_retries_witness :
  three_consecutive_failures booted exhausted /\
  three_consecutive_failures booted exhausted_listening /\
  rmCalls exhausted = 2 /\
  initializationAttempts exhausted_listening = 3 /\
  Forall (fun na => automatic na.2 = true)
    [("t", Settle 1 (Rejected "closed")); ("t", Settle 0 Resolved)] /\
  (exists s,
     run [("t", Settle 1 (Rejected "closed")); ("t", Settle 0 Resolved)]
       exhausted = Some s /\
     timers s = [] /\
     created s = 3 /\
     initializationAttempts s = 3).
Proof.
  assert (Hpending : three_consecutive_failures booted exhausted).
  { exists booted. split; [constructor|].
    eexists. split.
    { eexists. split; [by exists "t", 0, "a"|].
      eexists. split; [constructor|].
      eexists. split; [by exists "t", 1, Resolved|].
      eexists. split; [constructor|].
      eexists. split; [by exists "t", 0|].
      eexists. split; [constructor|].
      eexists. split; [by exists "t", 1, Resolved|]. constructor. }
    eexists. split.
    { eexists. split; [by exists "t", 1, "b"|].
      eexists. split; [constructor|].
      eexists. split; [by exists "t", 2, Resolved|].
      eexists. split; [constructor|].
      eexists. split; [by exists "t", 0|].
      eexists. split; [constructor|].
      eexists. split; [by exists "t", 2, Resolved|]. constructor. }
    eexists. split; [by exists "t", 2, "c"|]. constructor. }
  assert (Hresolved : three_consecutive_failures booted exhausted_listening).
  { eexists. split.
    { eapply meanwhile_resolves; [|constructor].
      by exists "t", 0, [IC_initialize; SS_init]. }
    eexists. split.
    { eexists. split; [by exists "t", 0, "a"|].
      eexists. split; [constructor|].
      eexists. split; [by exists "t", 0, (Rejected "EBUSY")|].
      eexists. split; [constructor|].
      eexists. split; [by exists "t", 0|].
      eexists. split; [constructor|].
      eexists. split; [by exists "t", 0, Resolved|].
      eapply meanwhile_resolves; [|constructor].
      by exists "t", 0, [IC_initialize]. }
    eexists. split.
    { eexists. split; [by exists "t", 1, "b"|].
      eexists. split; [constructor|].
      eexists. split; [by exists "t", 0, Resolved|].
      eexists. split; [constructor|].
      eexists. split; [by exists "t", 0|].
      eexists. split; [constructor|].
      eexists. split; [by exists "t", 0, (Rejected "closed")|].
      eapply meanwhile_resolves; [|constructor].
      by exists "t", 0, [IC_initialize]. }
    eexists. split; [by exists "t", 2, "c"|]. constructor. }
  assert (Hauto : Forall (fun na => automatic na.2 = true)
                    [("t", Settle 1 (Rejected "closed"));
                     ("t", Settle 0 Resolved)])
    by (by repeat constructor).
  destruct (three_failures_spend_retries exhausted Hpending)
    as (Hrm & _ & _ & _ & _ & _ & Hlater).
  destruct (three_failures_spend_retries exhausted_listening Hresolved)
    as (_ & Hcount & _).
  do 2 (split; [done|]). split; [exact Hrm|]. split; [exact Hcount|].
  split; [done|].
  eexists. split; [reflexivity|].
  destruct (Hlater _ _ Hauto eq_refl) as (? & ? & _ & ?). by repeat split.
Defined.

(** ** C6: POST /restart *)

(** What POST /restart does.  It clears the readiness flag, sets the counter
    to 0, destroys the current client and, when that has settled, calls
    [initializeClient], which is subject to its guard.  With the lock held
    the call does nothing and the request is acknowledged: no client is
    made.  With the lock free the lock is taken, the attempt counted, the
    client destroyed once more, and when that has settled a new client is
    made and becomes the current one; the acknowledgement waits for its
    [initialize()].  The task of the request sits at the end of the task
    list, and nothing else is taken to happen before it has settled.  Every
    state a run reaches has a current client ([has_client_run]). *)
Lemma restart_initializes_unless_locked s c now o1 o2 :
  listening s = true ->
  client s = Some c ->
  (isInitializing s = true ->
   exists s1,
     run [(now, Http PostRestart); (now, Settle (length (tasks s)) o1)] s
       = Some s1 /\
     isClientReady s1 = false /\
     initializationAttempts s1 = 0 /\
     destroyCalls s1 = destroyCalls s ++ [c] /\
     created s1 = created s /\
     client s1 = Some c /\
     isInitializing s1 = true /\
     tasks s1 = tasks s /\
     timers s1 = timers s /\
     responses s1
       = responses s ++ [acknowledge "Client restart initiated" now]) /\
  (isInitializing s = false ->
   exists s1,
     run [(now, Http PostRestart); (now, Settle (length (tasks s)) o1);
          (now, Settle (length (tasks s)) o2)] s = Some s1 /\
     isClientReady s1 = false /\
     initializationAttempts s1 = 1 /\
     isInitializing s1 = true /\
     destroyCalls s1 = destroyCalls s ++ [c; c] /\
     created s1 = S (created s) /\
     client s1 = Some (created s) /\
     tasks s1 = tasks s ++ [[IC_initialize; RS_init]] /\
     timers s1 = timers s /\
     responses s1 = responses s).
Proof.
  intros Hlisten Hclient.
  destruct s as [cl rd qr n lk cr rm ds lo tm tk li rs]. cbn in *. subst.
  split; intros ->.
  - eexists. split.
    { cbn. rewrite lookup_last, delete_last. cbn. reflexivity. }
    cbn. repeat split.
  - eexists. split.
    { cbn. rewrite lookup_last, delete_last. cbn.
      rewrite lookup_last, delete_last. cbn. reflexivity. }
    cbn. repeat split. by rewrite <- app_assoc.
Qed.

Lemma restart_initializes_unless_locked_witness :
  (listening unauthenticated = true /\ client unauthenticated = Some 0 /\
   isInitializing unauthenticated = true /\
   exists s1,
     run [("t", Http PostRestart); ("t", Settle 0 Resolved)] unauthenticated
       = Some s1 /\
     created s1 = 1 /\
     client s1 = Some 0) /\
  (listening connected = true /\ client connected = Some 0 /\
   isInitializing connected = false /\
   exists s1,
     run [("t", Http PostRestart); ("t", Settle 0 Resolved);
          ("t", Settle 0 Resolved)] connected = Some s1 /\
     created s1 = 2 /\
     client s1 = Some 1).
Proof.
  destruct (restart_initializes_unless_locked unauthenticated 0 "t" Resolved
              Resolved eq_refl eq_refl) as [Hlocked _].
  destruct (Hlocked eq_refl)
    as (s1 & Hrun1 & _ & _ & _ & Hcreated1 & Hclient1 & _).
  destruct (restart_initializes_unless_locked connected 0 "t" Resolved
              Resolved eq_refl eq_refl) as [_ Hfree].
  destruct (Hfree eq_refl)
    as (s2 & Hrun2 & _ & _ & _ & _ & Hcreated2 & Hclient2 & _).
  split.
  - repeat split; try done. exists s1. by repeat split.
  - repeat split; try done. exists s2. by repeat split.
Defined.

(** C6.  The route at a state in which the lock is held: [initialize()] of
    the first client has resolved, so the server listens; the client shows
    a code and nobody scans it, so no [ready] event has come.  POST /restart
    destroys the client, finds the lock held, and acknowledges "Client
    restart initiated": no client was made, nothing waits and no timer is
    armed that would make one, the lock stays held, and the current client
    is the destroyed one. *)
Theorem restart_stopped_by_guard :
  exists s1,
    run [("t", Settle 0 Resolved); ("t", Emit 0 (Qr "ABC123"))] booted
    = Some scanning /\
    isInitializing scanning = true /\
    run [("t", Http PostRestart); ("t", Settle 0 Resolved)] scanning
    = Some s1 /\
    created s1 = created scanning /\
    client s1 = Some 0 /\
    destroyCalls s1 = [0] /\
    isInitializing s1 = true /\
    tasks s1 = [] /\
    timers s1 = [] /\
    responses s1 = [acknowledge "Client restart initiated" "t"].
Proof. eexists. split; [reflexivity|]. by repeat split. Qed.

(** ** C7: the readiness middleware *)

(** The test of line 178 is one of truthiness.  Were a client to emit [qr]
    with the empty string, which is no code to scan, that string would be
    stored and sent with the rejection, with the message of a client that
    has no code yet. *)
Lemma gate_empty_code_reads_initializing :
  exists s,
    run [("t", Emit 0 (Qr EmptyString)); ("t", Settle 0 Resolved)] booted = Some s /\
    isClientReady s = false /\
    qrCodeString s <> None /\
    requireClientReady (logout_route "t") s
    = (respond
         (Response 503
            [("error", JStr "WhatsApp client not ready");
             ("qrCode", JStr EmptyString);
             ("message", JStr "Client initializing...")]) s, []).
Proof. eexists. split; [reflexivity|]. by repeat split. Qed.

(** The middleware on any state.  It lets the route run, on the state as it
    is, exactly when the readiness flag is set.  Otherwise it answers 503 with
    the stored code ([null] when there is none) and a message that asks to
    scan the code when the stored code is a non-empty string and says that
    the client is initializing when there is no code or an empty one; the
    answer is all it adds to the state. *)
Lemma readiness_gate next s :
  (isClientReady s = true -> requireClientReady next s = next s) /\
  (isClientReady s = false ->
   exists message s1,
     requireClientReady next s = (s1, []) /\
     responses s1
     = responses s ++
       [Response 503
          [("error", JStr "WhatsApp client not ready");
           ("qrCode", json_of (qrCodeString s));
           ("message", JStr message)]] /\
     (forall code, qrCodeString s = Some code -> code <> EmptyString ->
                   message = "Please scan QR code") /\
     (qrCodeString s = None \/ qrCodeString s = Some EmptyString ->
      message = "Client initializing...") /\
     lifecycle s1 = lifecycle s /\
     created s1 = created s /\
     rmCalls s1 = rmCalls s /\
     destroyCalls s1 = destroyCalls s /\
     logoutCalls s1 = logoutCalls s /\
     timers s1 = timers s /\
     tasks s1 = tasks s /\
     listening s1 = listening s).
Proof.
  unfold requireClientReady. split; intros ->; [done|].
  exists (if truthy (qrCodeString s)
          then "Please scan QR code" else "Client initializing..."),
         (respond (notReady s) s).
  split; [done|]. split; [by destruct s|].
  split; [|split; [|by destruct s]].
  - intros code -> Hcode. cbn. by rewrite bool_decide_eq_false_2.
  - by intros [-> | ->].
Qed.

Lemma readiness_gate_witness :
  isClientReady connected = true /\
  requireClientReady (logout_route "t") connected
  = logout_route "t" connected /\
  isClientReady scanning = false /\
  exists s1,
    requireClientReady (logout_route "t") scanning = (s1, []) /\
    responses s1
    = [Response 503
         [("error", JStr "WhatsApp client not ready");
          ("qrCode", JStr "ABC123");
          ("message", JStr "Please scan QR code")]] /\
    lifecycle s1 = lifecycle scanning.
Proof.
  destruct (readiness_gate (logout_route "t") connected) as [Hpass _].
  destruct (readiness_gate (logout_route "t") scanning) as [_ Hreject].
  destruct (Hreject eq_refl)
    as (message & s1 & Hgate & Hresponse & Hscan & _ & Hvars & _).
  split; [done|]. split; [exact (Hpass eq_refl)|]. split; [done|].
  exists s1. split; [done|]. split; [|done].
  rewrite Hresponse. by rewrite (Hscan "ABC123" eq_refl).
Defined.

(** ** C8: the lifetime of the stored code *)

Section StoredCode.

Lemma code_spawn p : qrCodeString (spawn p) = qrCodeString p.1.
Proof. destruct p as [s [|k ks]]; [done|]. by destruct s. Qed.

Lemma code_initializeClient s :
  qrCodeString (initializeClient s).1 = qrCodeString s.
Proof. open_state s. Qed.

Lemma code_handle c e s :
  qrCodeString (handle e s).1 = qr_after (Emit c e) (qrCodeString s).
Proof. destruct e; open_state s. Qed.

Lemma code_route r now s : qrCodeString (route r now s).1 = qrCodeString s.
Proof.
  destruct r; cbn; try (by destruct s); open_state s.
Qed.

Lemma code_resume k o now s :
  qrCodeString (resume k o now s).1 = qrCodeString s.
Proof.
  destruct k; cbn; try (by destruct s); open_state s.
Qed.

Lemma code_unwind stack o now s :
  qrCodeString (unwind stack o now s).1 = qrCodeString s.
Proof.
  revert o s. induction stack as [|k callers IH]; intros o s; [done|].
  cbn. rewrite <- (code_resume k o now s).
  destruct (resume k o now s) as [s1 [|k1 ks]]; cbn; [apply IH|done].
Qed.

Lemma code_step now a s s1 :
  step now a s = Some s1 ->
  qrCodeString s1 = qr_after a (qrCodeString s).
Proof.
  intros Hstep. unfold step in Hstep.
  repeat case_match; simplify_eq; rewrite code_spawn.
  - apply code_handle.
  - rewrite code_initializeClient. by destruct s.
  - rewrite code_unwind. by destruct s.
  - apply code_route.
Qed.

Lemma code_run trace s s1 :
  run trace s = Some s1 ->
  qrCodeString s1 = qr_of_trace trace (qrCodeString s).
Proof.
  revert s. induction trace as [|[now a] rest IH]; intros s Hrun.
  - by simplify_eq/=.
  - cbn in Hrun. destruct (step now a s) as [s2|] eqn:Hstep; [|done].
    cbn. rewrite <- (code_step _ _ _ _ Hstep). by apply IH.
Qed.

End StoredCode.

(** ** C7: the readiness middleware on the runs of the server *)

Lemma qr_of_trace_nonempty trace q :
  codes_nonempty trace ->
  q <> Some EmptyString ->
  qr_of_trace trace q <> Some EmptyString.
Proof.
  intros Hcodes. revert q.
  induction Hcodes as [|[now a] rest Ha _ IH]; intros q Hq; [done|].
  cbn. apply IH. cbn in Ha.
  destruct a as [c []| | |]; cbn; try done. congruence.
Qed.

(** C7.  In every state a run reaches whose [qr] events carry one-time
    codes, the middleware lets the route run, on the state as it is, exactly
    when the readiness flag is set.  Otherwise it answers 503 with the
    stored code ([null] when there is none) and a message that asks to scan
    the code when a code is stored and says that the client is initializing
    when none is; the answer is all it adds to the state. *)
Theorem readiness_gate_contract trace s next :
  run trace booted = Some s ->
  codes_nonempty trace ->
  (isClientReady s = true -> requireClientReady next s = next s) /\
  (isClientReady s = false ->
   exists message s1,
     requireClientReady next s = (s1, []) /\
     responses s1
     = responses s ++
       [Response 503
          [("error", JStr "WhatsApp client not ready");
           ("qrCode", json_of (qrCodeString s));
           ("message", JStr message)]] /\
     (qrCodeString s <> None -> message = "Please scan QR code") /\
     (qrCodeString s = None -> message = "Client initializing...") /\
     lifecycle s1 = lifecycle s /\
     created s1 = created s /\
     rmCalls s1 = rmCalls s /\
     destroyCalls s1 = destroyCalls s /\
     logoutCalls s1 = logoutCalls s /\
     timers s1 = timers s /\
     tasks s1 = tasks s /\
     listening s1 = listening s).
Proof.
  intros Hrun Hcodes.
  assert (Hcode : qrCodeString s <> Some EmptyString).
  { rewrite (code_run _ _ _ Hrun). by apply qr_of_trace_nonempty. }
  destruct (readiness_gate next s) as [Hpass Hreject].
  split; [done|]. intros Hoff.
  destruct (Hreject Hoff)
    as (message & s1 & Hgate & Hanswer & Hscan & Hwait & Hrest).
  exists message, s1. do 2 (split; [done|]).
  split; [|split; [auto|done]].
  intros Hpresent. destruct (qrCodeString s) as [code|] eqn:Hq; [|done].
  apply (Hscan code eq_refl). congruence.
Qed.

Lemma readiness_gate_contract_witness :
  run [("t", Settle 0 Resolved); ("t", Emit 0 (Qr "ABC123"))] booted
  = Some scanning /\
  codes_nonempty [("t", Settle 0 Resolved); ("t", Emit 0 (Qr "ABC123"))] /\
  isClientReady scanning = false /\
  qrCodeString scanning <> None /\
  exists s1,
    requireClientReady (logout_route "t") scanning = (s1, []) /\
    responses s1
    = [Response 503
         [("error", JStr "WhatsApp client not ready");
          ("qrCode", JStr "ABC123");
          ("message", JStr "Please scan QR code")]] /\
    lifecycle s1 = lifecycle scanning.
Proof.
  assert (Hcodes : codes_nonempty
                     [("t", Settle 0 Resolved); ("t", Emit 0 (Qr "ABC123"))])
    by (by repeat constructor).
  assert (Hpresent : qrCodeString scanning <> None) by done.
  destruct (readiness_gate_contract
              [("t", Settle 0 Resolved); ("t", Emit 0 (Qr "ABC123"))]
              scanning (logout_route "t") eq_refl Hcodes) as [_ Hreject].
  destruct (Hreject eq_refl)
    as (message & s1 & Hgate & Hanswer & Hscan & _ & Hvars & _).
  do 4 (split; [done|]).
  exists s1. split; [done|]. split; [|done].
  rewrite Hanswer. by rewrite (Hscan Hpresent).
Defined.

(** C8, as the specification has it, fails: a code that was emitted stays
    stored through an authentication failure, after which the client is
    neither ready nor initializing, and through a disconnection. *)
Lemma qr_code_outlives_failure :
  exists s1 s2,
    run [("t", Emit 0 (Qr "ABC123")); ("t", Emit 0 (AuthFailure "bad"))]
      booted = Some s1 /\
    qrCodeString s1 = Some "ABC123" /\
    isClientReady s1 = false /\
    isInitializing s1 = false /\
    healthStatus s1 = "not_ready" /\
    run [("t", Emit 0 (Qr "ABC123"));
         ("t", Emit 0 (Disconnected "NAVIGATION"))] booted = Some s2 /\
    qrCodeString s2 = Some "ABC123" /\
    isClientReady s2 = false.
Proof. do 2 eexists. split; [reflexivity|]. by repeat split. Qed.

(** C8, amended.  In every reachable state the stored code is the one of
    the latest [qr] event, unless an [authenticated] or a [ready] event came
    after it, and then it is [null]: those two events clear it, a [qr]
    event sets it, and nothing else (authentication failure, disconnection,
    timers, settlements, requests) changes it. *)
Theorem qr_code_follows_events trace s :
  run trace booted = Some s ->
  qrCodeString s = qr_of_trace trace None /\
  forall now a s1,
    step now a s = Some s1 ->
    qrCodeString s1
    = match a with
      | Emit _ (Qr qr) => Some qr
      | Emit _ Authenticated | Emit _ Ready => None
      | Emit _ (AuthFailure _) | Emit _ (Disconnected _)
      | Emit _ (LoadingScreen _ _) | Fire _ | Settle _ _ | Http _ =>
          qrCodeString s
      end.
Proof.
  intros Hrun. split.
  - exact (code_run _ _ _ Hrun).
  - intros now a s1 Hstep. rewrite (code_step _ _ _ _ Hstep).
    by destruct a as [c []| | |].
Qed.

Lemma qr_code_follows_events_witness :
  run [("t", Emit 0 (Qr "ABC123")); ("t", Emit 0 (AuthFailure "bad"))] booted
  = Some failed_with_code /\
  qrCodeString failed_with_code = Some "ABC123" /\
  exists s1,
    step "t" (Emit 0 Authenticated) failed_with_code = Some s1 /\
    qrCodeString s1 = None.
Proof.
  destruct (qr_code_follows_events
              [("t", Emit 0 (Qr "ABC123")); ("t", Emit 0 (AuthFailure "bad"))]
              failed_with_code eq_refl) as [Hcode Hnext].
  split; [done|]. split; [exact Hcode|].
  eexists. split; [reflexivity|].
  exact (Hnext "t" (Emit 0 Authenticated) _ eq_refl).
Defined.

(** ** C9: code, authentication, readiness *)

(** C9.  From the first initialization, the events [qr("ABC123")],
    [authenticated], [ready] leave the client ready, no code stored, the
    counter at 0 and the lock free; once [initialize()] has settled, either
    way, GET /health answers just that. *)
Theorem qr_authenticated_ready now o :
  exists s s1,
    run [(now, Emit 0 (Qr "ABC123")); (now, Emit 0 Authenticated);
         (now, Emit 0 Ready)] booted = Some s /\
    isClientReady s = true /\
    qrCodeString s = None /\
    initializationAttempts s = 0 /\
    isInitializing s = false /\
    run [(now, Settle 0 o); (now, Http GetHealth)] s = Some s1 /\
    responses s1
    = [Response 200
         [("status", JStr "ready");
          ("qrCode", JNull);
          ("timestamp", JStr now);
          ("initializationAttempts", JNum 0);
          ("maxAttempts", JNum 3);
          ("isInitializing", JBool false)]].
Proof.
  destruct o; do 2 eexists;
    (split; [reflexivity|]); do 4 (split; [reflexivity|]);
    split; reflexivity.
Qed.

(** ** C10: POST /logout *)

(** C10.  With the client ready, POST /logout calls [logout()] on the
    current client and waits, the readiness flag still set and nothing
    answered.  When the call is rejected, in whatever state [s2] the task
    then finds, no variable changes, so a flag that was set stays set and
    the status still reads "ready", and the caller gets the 500 answer of
    the error middleware with the message of the error.  When it resolves,
    the flag is cleared and the logout acknowledged. *)
Theorem logout_clears_readiness_on_success s c now :
  listening s = true ->
  isClientReady s = true ->
  client s = Some c ->
  exists s1,
    step now (Http PostLogout) s = Some s1 /\
    isClientReady s1 = true /\
    lifecycle s1 = lifecycle s /\
    logoutCalls s1 = logoutCalls s ++ [c] /\
    tasks s1 = tasks s ++ [[LO_logout]] /\
    responses s1 = responses s /\
    forall s2 i now2,
      tasks s2 !! i = Some [LO_logout] ->
      (forall message, exists s3,
         step now2 (Settle i (Rejected message)) s2 = Some s3 /\
         lifecycle s3 = lifecycle s2 /\
         isClientReady s3 = isClientReady s2 /\
         healthStatus s3 = healthStatus s2 /\
         (isClientReady s2 = true -> healthStatus s3 = "ready") /\
         timers s3 = timers s2 /\
         tasks s3 = delete i (tasks s2) /\
         responses s3
         = responses s2 ++
           [Response 500
              [("error", JStr "Internal server error");
               ("message", JStr message);
               ("timestamp", JStr now2)]]) /\
      (exists s3,
         step now2 (Settle i Resolved) s2 = Some s3 /\
         isClientReady s3 = false /\
         tasks s3 = delete i (tasks s2) /\
         responses s3
         = responses s2 ++
           [Response 200
              [("message", JStr "Logged out successfully");
               ("timestamp", JStr now2)]]).
Proof.
  intros Hlisten Hready Hclient.
  exists (spawn (logout c s, [LO_logout])). split.
  { unfold step. rewrite Hlisten. cbn. unfold requireClientReady.
    rewrite Hready. cbn. unfold logout_route. by rewrite Hclient. }
  do 5 (split; [by destruct s|]).
  intros s2 i now2 Hi. split.
  - intros message. eexists. split.
    { unfold step. rewrite Hi. cbn. reflexivity. }
    destruct s2 as [cl rd qr n lk cr rm ds lo tm tk li rs].
    cbn. repeat split. by intros ->.
  - eexists. split.
    { unfold step. rewrite Hi. cbn. reflexivity. }
    by destruct s2.
Qed.

Lemma logout_clears_readiness_on_success_witness :
  listening connected = true /\
  isClientReady connected = true /\
  client connected = Some 0 /\
  exists s1 s3,
    step "t" (Http PostLogout) connected = Some s1 /\
    isClientReady s1 = true /\
    logoutCalls s1 = [0] /\
    step "u" (Settle 0 (Rejected "Protocol error")) s1 = Some s3 /\
    isClientReady s3 = true /\
    healthStatus s3 = "ready" /\
    responses s3
    = [Response 500
         [("error", JStr "Internal server error");
          ("message", JStr "Protocol error");
          ("timestamp", JStr "u")]].
Proof.
  destruct (logout_clears_readiness_on_success connected 0 "t"
              eq_refl eq_refl eq_refl)
    as (s1 & Hstep & Hready & Hvars & Hcalls & Htasks & Hresponses & Hsettle).
  assert (Hi : tasks s1 !! 0 = Some [LO_logout]) by (by rewrite Htasks).
  destruct (Hsettle s1 0 "u" Hi) as [Hrejected _].
  destruct (Hrejected "Protocol error")
    as (s3 & Hstep3 & _ & Hready3 & _ & Hstatus3 & _ & _ & Hresponses3).
  do 3 (split; [done|]).
  exists s1, s3.
  split; [done|]. split; [done|]. split; [by rewrite Hcalls|].
  split; [done|]. split; [by rewrite Hready3|].
  split; [by apply Hstatus3|].
  by rewrite Hresponses3, Hresponses.
Defined.

(** * Further properties of the lifecycle *)

(** ** The current client is the newest one *)

Section NewestIsCurrent.

Lemma newest_spawn p : newest_is_current p.1 -> newest_is_current (spawn p).
Proof. destruct p as [s [|k ks]]; [done|]. by destruct s. Qed.

Lemma newest_app (l : list nat) (c n : nat) :
  Forall (fun c => c < n) l -> c < n -> Forall (fun c => c < n) (l ++ [c]).
Proof. intros Hl Hc. apply Forall_app. split; [done|]. by constructor. Qed.

Lemma newest_weaken (l : list nat) (n : nat) :
  Forall (fun c => c < n) l -> Forall (fun c => c < S n) l.
Proof. intros Hl. eapply Forall_impl; [done|]. cbn. lia. Qed.

(** Opens the invariant on a state given by its fields. *)
Ltac open_newest H :=
  destruct H as ((? & Hcreated & Hclient) & Hdestroyed & Hlogged);
  cbn in *; subst.

Ltac close_newest :=
  repeat split; eauto using newest_app, newest_weaken;
  try (apply newest_app; [done|lia]);
  try (apply newest_weaken; apply newest_app; [done|lia]).

Lemma newest_lock s :
  newest_is_current s -> newest_is_current (initializeClient_lock s).1.
Proof.
  intros H. destruct s. open_newest H.
  unfold initializeClient_lock. cbn. close_newest.
Qed.

Lemma newest_create s :
  newest_is_current s -> newest_is_current (initializeClient_create s).1.
Proof. intros H. destruct s. open_newest H. cbn. close_newest. Qed.

Lemma newest_initializeClient s :
  newest_is_current s -> newest_is_current (initializeClient s).1.
Proof.
  intros H. unfold initializeClient.
  destruct (isInitializing s); [done|].
  destruct (_ <=? _); [|by apply newest_lock].
  destruct s. open_newest H. cbn. close_newest.
Qed.

Lemma newest_handle e s :
  newest_is_current s -> newest_is_current (handle e s).1.
Proof.
  intros H. destruct s. open_newest H.
  destruct e; autounfold with lifecycle; cbn;
    repeat case_match; cbn; close_newest.
Qed.

Lemma newest_set_flags a b s :
  newest_is_current s ->
  newest_is_current (set_initializationAttempts a (set_isClientReady b s)).
Proof. by destruct s. Qed.

Lemma newest_respond r s :
  newest_is_current s -> newest_is_current (respond r s).
Proof. by destruct s. Qed.

Lemma newest_restart_initialize now s :
  newest_is_current s -> newest_is_current (restart_initialize now s).1.
Proof.
  intros H. apply newest_initializeClient in H. unfold restart_initialize.
  destruct (initializeClient s) as [s1 [|k ks]]; [|done].
  by apply newest_respond.
Qed.

Lemma newest_route r now s :
  newest_is_current s -> newest_is_current (route r now s).1.
Proof.
  intros H. destruct r; cbn.
  - by apply newest_respond.
  - unfold restart. destruct (client _) eqn:Hc.
    + destruct s. open_newest H. simplify_eq. close_newest.
    + by apply newest_restart_initialize, newest_set_flags.
  - destruct s. open_newest H. cbn. close_newest.
  - destruct s. open_newest H. autounfold with lifecycle. cbn.
    repeat case_match; cbn; close_newest.
  - by apply newest_respond.
Qed.

Lemma newest_resume k o now s :
  newest_is_current s -> newest_is_current (resume k o now s).1.
Proof.
  intros H. destruct k; cbn.
  - apply newest_lock. by destruct s.
  - by apply newest_create.
  - destruct o; [done|]. destruct s. open_newest H.
    autounfold with lifecycle. cbn. repeat case_match; cbn; close_newest.
  - by destruct s.
  - by apply newest_restart_initialize.
  - by apply newest_respond.
  - by destruct s.
  - by destruct s.
  - destruct o; by destruct s.
  - by destruct s.
Qed.

Lemma newest_unwind stack o now s :
  newest_is_current s -> newest_is_current (unwind stack o now s).1.
Proof.
  revert o s. induction stack as [|k callers IH]; intros o s Hs; [done|].
  cbn. pose proof (newest_resume k o now s Hs) as Hk.
  destruct (resume k o now s) as [s1 [|k1 ks]]; cbn in *; auto.
Qed.

Lemma newest_step now a s s1 :
  step now a s = Some s1 -> newest_is_current s -> newest_is_current s1.
Proof.
  intros Hstep Hs. unfold step in Hstep.
  repeat case_match; simplify_eq; apply newest_spawn.
  - by apply newest_handle.
  - apply newest_initializeClient. by destruct s.
  - apply newest_unwind. by destruct s.
  - by apply newest_route.
Qed.

Lemma newest_booted : newest_is_current booted.
Proof. repeat split; [by exists 0|constructor|constructor]. Qed.

End NewestIsCurrent.

(** X1.  In every state a run reaches there is a current client, it is the
    one that was made last, and [destroy()] and [logout()] have only been
    called on clients that were made. *)
Theorem current_client_is_newest trace s :
  run trace booted = Some s ->
  (exists n, created s = S n /\ client s = Some n) /\
  Forall (fun c => c < created s) (destroyCalls s) /\
  Forall (fun c => c < created s) (logoutCalls s).
Proof.
  assert (Hgen : forall s0, run trace s0 = Some s ->
                            newest_is_current s0 -> newest_is_current s).
  { induction trace as [|[now a] rest IH]; intros s0 Hrun Hs0.
    - by simplify_eq/=.
    - cbn in Hrun. destruct (step now a s0) as [s2|] eqn:Hstep; [|done].
      eauto using newest_step. }
  intros Hrun. exact (Hgen booted Hrun newest_booted).
Qed.

Lemma current_client_is_newest_witness :
  run (three_failures "a" "b" "c" Resolved Resolved Resolved Resolved "t")
    booted = Some exhausted /\
  (exists n, created exhausted = S n /\ client exhausted = Some n) /\
  Forall (fun c => c < 3) (destroyCalls exhausted).
Proof.
  destruct (current_client_is_newest
              (three_failures "a" "b" "c" Resolved Resolved Resolved Resolved
                 "t") exhausted eq_refl) as (Hnewest & Hdestroyed & _).
  by repeat split.
Defined.

(** ** Readiness comes from a [ready] event only *)

Section ReadinessOrigin.

Lemma ready_spawn p : isClientReady (spawn p) = isClientReady p.1.
Proof. destruct p as [s [|k ks]]; [done|]. by destruct s. Qed.

Lemma ready_initializeClient s :
  isClientReady (initializeClient s).1 = isClientReady s.
Proof. open_state s. Qed.

Lemma ready_handle e s :
  e <> Ready ->
  isClientReady (handle e s).1 = true -> isClientReady s = true.
Proof. intros He. destruct e; try done; open_state s. Qed.

Lemma ready_route r now s :
  isClientReady (route r now s).1 = true -> isClientReady s = true.
Proof. destruct r; open_state s. Qed.

Lemma ready_resume k o now s :
  isClientReady (resume k o now s).1 = true -> isClientReady s = true.
Proof. destruct k; try destruct o; open_state s. Qed.

Lemma ready_unwind stack o now s :
  isClientReady (unwind stack o now s).1 = true -> isClientReady s = true.
Proof.
  revert o s. induction stack as [|k callers IH]; intros o s; [done|].
  cbn. pose proof (ready_resume k o now s) as Hk.
  destruct (resume k o now s) as [s1 [|k1 ks]]; cbn in *; eauto.
Qed.

End ReadinessOrigin.

(** X2.  The readiness flag is set by a [ready] event and by nothing else:
    no timer, settlement, request or other event turns it on.  A [ready]
    event of any client that was made sets it, frees the lock, clears the
    stored code and sets the counter to 0. *)
Theorem readiness_only_from_ready now a s s1 :
  step now a s = Some s1 ->
  (isClientReady s = false -> isClientReady s1 = true ->
   exists c, a = Emit c Ready) /\
  (forall c, a = Emit c Ready ->
             isClientReady s1 = true /\
             isInitializing s1 = false /\
             qrCodeString s1 = None /\
             initializationAttempts s1 = 0 /\
             timers s1 = timers s /\
             tasks s1 = tasks s).
Proof.
  intros Hstep. split.
  - intros Hoff Hon. unfold step in Hstep.
    repeat case_match; simplify_eq; rewrite ready_spawn in Hon.
    + destruct e; try (by eexists);
        (apply ready_handle in Hon; [congruence|done]).
    + rewrite ready_initializeClient in Hon. destruct s. cbn in *. congruence.
    + apply ready_unwind in Hon. destruct s. cbn in *. congruence.
    + apply ready_route in Hon. congruence.
  - intros c ->. unfold step in Hstep.
    case_match; simplify_eq. by destruct s.
Qed.

Lemma readiness_only_from_ready_witness :
  step "t" (Emit 0 Ready) scanning = Some connected /\
  isClientReady scanning = false /\
  isClientReady connected = true /\
  (exists c, Emit 0 Ready = Emit c Ready) /\
  qrCodeString connected = None.
Proof.
  destruct (readiness_only_from_ready "t" (Emit 0 Ready) scanning connected
              eq_refl) as [Honly Hready].
  destruct (Hready 0 eq_refl) as (_ & _ & Hcode & _).
  repeat split; try done.
  exact (Honly eq_refl eq_refl).
Defined.

(** ** Every request is answered once *)

Section Accounting.

#[local] Arguments owed : simpl never.
#[local] Arguments owed_all : simpl never.

(** Counts the frames of the closed stacks in the goal. *)
Ltac count_owed :=
  repeat match goal with
         | |- context [owed ?stack] =>
             let n := eval vm_compute in (owed stack) in
             change (owed stack) with n
         end.

Lemma owed_app a b : owed (a ++ b) = owed a + owed b.
Proof. unfold owed. by rewrite filter_app, length_app. Qed.

Lemma owed_all_app l1 l2 : owed_all (l1 ++ l2) = owed_all l1 + owed_all l2.
Proof.
  unfold owed_all. induction l1 as [|x l1 IH]; cbn; [done|].
  rewrite IH. lia.
Qed.

Lemma owed_all_delete l i stack :
  l !! i = Some stack -> owed_all l = owed stack + owed_all (delete i l).
Proof.
  intros Hi. rewrite delete_take_drop.
  rewrite <- (take_drop_middle l i stack Hi) at 1.
  rewrite !owed_all_app.
  change (owed_all (stack :: drop (S i) l))
    with (owed stack + owed_all (drop (S i) l)).
  lia.
Qed.

(** The functions of the routes never touch the task list themselves. *)
Lemma balance_initializeClient s :
  balance (initializeClient s) = length (responses s) /\
  tasks (initializeClient s).1 = tasks s /\
  listening (initializeClient s).1 = listening s.
Proof.
  unfold balance. open_state s; count_owed; repeat split; lia.
Qed.

Lemma balance_handle e s :
  balance (handle e s) = length (responses s) /\
  tasks (handle e s).1 = tasks s /\
  listening (handle e s).1 = listening s.
Proof.
  unfold balance. destruct e; open_state s; count_owed; repeat split; lia.
Qed.

Lemma balance_route r now s :
  balance (route r now s) = S (length (responses s)) /\
  tasks (route r now s).1 = tasks s /\
  listening (route r now s).1 = listening s.
Proof.
  unfold balance.
  destruct r; open_state s; count_owed; cbn;
    repeat split; rewrite ?length_app; cbn; lia.
Qed.

Lemma balance_resume k o now s :
  balance (resume k o now s) = length (responses s) + owed [k] /\
  tasks (resume k o now s).1 = tasks s /\
  (listening (resume k o now s).1 = listening s \/ k = SS_init).
Proof.
  unfold balance.
  destruct k; try destruct o; open_state s;
    count_owed; cbn; repeat split; rewrite ?length_app; cbn; (lia || auto).
Qed.

Lemma balance_unwind stack o now s :
  balance (unwind stack o now s) = length (responses s) + owed stack /\
  tasks (unwind stack o now s).1 = tasks s.
Proof.
  revert o s. induction stack as [|k callers IH]; intros o s.
  { unfold balance. cbn. change (owed []) with 0. split; [lia|done]. }
  cbn. destruct (balance_resume k o now s) as (Hk & Htasks & _).
  change (k :: callers) with ([k] ++ callers). rewrite owed_app.
  destruct (resume k o now s) as [s1 [|k1 ks]]; unfold balance in *;
    cbn [fst snd] in *.
  - destruct (IH Resolved s1) as [Hb Ht]. unfold balance in Hb.
    change (owed []) with 0 in Hk. split; [lia|congruence].
  - rewrite owed_app. split; [lia|done].
Qed.

Lemma balance_spawn p :
  length (responses (spawn p)) + owed_all (tasks (spawn p))
  = balance p + owed_all (tasks p.1).
Proof.
  unfold balance. destruct p as [s [|k ks]]; cbn [spawn fst snd].
  - change (owed []) with 0. lia.
  - destruct s. cbn [tasks responses set_tasks]. rewrite owed_all_app.
    change (owed_all [k :: ks]) with (owed (k :: ks) + 0). lia.
Qed.

Lemma accounting_step now a s s1 :
  step now a s = Some s1 ->
  length (responses s1) + owed_all (tasks s1)
  = length (responses s) + owed_all (tasks s) + served a.
Proof.
  intros Hstep. unfold step in Hstep.
  repeat case_match; simplify_eq; rewrite balance_spawn.
  - destruct (balance_handle e s) as (-> & -> & _). cbn. lia.
  - destruct (balance_initializeClient
                (set_timers (delete i (timers s)) s)) as (-> & -> & _).
    destruct s. cbn. lia.
  - destruct (balance_unwind l o now (set_tasks (delete i (tasks s)) s))
      as (-> & ->).
    rewrite (owed_all_delete (tasks s) i l) by done.
    destruct s. cbn. lia.
  - destruct (balance_route r now s) as (-> & -> & _). cbn. lia.
Qed.

Lemma accounting_run trace s s1 :
  run trace s = Some s1 ->
  length (responses s1) + owed_all (tasks s1)
  = length (responses s) + owed_all (tasks s) + requests trace.
Proof.
  revert s. induction trace as [|[now a] rest IH]; intros s Hrun.
  - simplify_eq/=. change (requests []) with 0. lia.
  - cbn in Hrun. destruct (step now a s) as [s2|] eqn:Hstep; [|done].
    rewrite (IH _ Hrun), (accounting_step _ _ _ _ Hstep).
    change (requests ((now, a) :: rest)) with (served a + requests rest).
    lia.
Qed.

End Accounting.

(** X3.  At every moment of a run the answers sent and the requests that
    still wait in a task add up to the requests received: [asyncHandler],
    the middleware and the routes answer every request once, never twice,
    and lose none. *)
Theorem every_request_answered_once trace s :
  run trace booted = Some s ->
  length (responses s) + owed_all (tasks s) = requests trace.
Proof.
  intros Hrun. by rewrite (accounting_run _ _ _ Hrun).
Qed.

Lemma every_request_answered_once_witness :
  exists s,
    run [("t", Settle 0 Resolved); ("t", Http GetHealth);
         ("t", Http PostRestart); ("t", Http GetQr)] booted = Some s /\
    length (responses s) = 2 /\
    tasks s = [[RS_destroy]] /\
    length (responses s) + owed_all (tasks s) = 3.
Proof.
  eexists. split; [reflexivity|]. do 2 (split; [reflexivity|]).
  exact (every_request_answered_once
           [("t", Settle 0 Resolved); ("t", Http GetHealth);
            ("t", Http PostRestart); ("t", Http GetQr)] _ eq_refl).
Defined.

(** ** When the server listens *)

Section Listening.

Lemma listening_spawn p : listening (spawn p) = listening p.1.
Proof. destruct p as [s [|k ks]]; [done|]. by destruct s. Qed.

Lemma tasks_spawn p :
  tasks (spawn p) = tasks p.1 \/ exists ks, tasks (spawn p) = tasks p.1 ++ [ks].
Proof. destruct p as [s [|k ks]]; [by left|]. right. eexists. by destruct s. Qed.

Lemma elem_of_tasks_spawn stack p : stack ∈ tasks p.1 -> stack ∈ tasks (spawn p).
Proof.
  intros Hin. destruct (tasks_spawn p) as [->|[ks ->]]; [done|].
  apply elem_of_app. by left.
Qed.

Lemma elem_of_delete_other {A} (l : list A) i x y :
  x ∈ l -> l !! i = Some y -> x <> y -> x ∈ delete i l.
Proof.
  intros Hin Hi Hne. rewrite delete_take_drop.
  rewrite <- (take_drop_middle l i y Hi) in Hin.
  apply elem_of_app in Hin as [Hin|Hin]; apply elem_of_app; [by left|].
  apply elem_of_cons in Hin as [->|Hin]; [done|by right].
Qed.

Lemma listening_resume_stays k o now s :
  listening s = true -> listening (resume k o now s).1 = true.
Proof.
  intros Hs. destruct (balance_resume k o now s) as (_ & _ & [->| ->]);
    [done|]. by destruct s.
Qed.

Lemma listening_unwind_stays stack o now s :
  listening s = true -> listening (unwind stack o now s).1 = true.
Proof.
  revert o s. induction stack as [|k callers IH]; intros o s Hs; [done|].
  cbn. pose proof (listening_resume_stays k o now s Hs) as Hk.
  destruct (resume k o now s) as [s1 [|k1 ks]]; cbn in *; auto.
Qed.

Lemma listening_step_stays now a s s1 :
  step now a s = Some s1 -> listening s = true -> listening s1 = true.
Proof.
  intros Hstep Hs. unfold step in Hstep.
  repeat case_match; simplify_eq; rewrite listening_spawn.
  - by destruct (balance_handle e s) as (_ & _ & ->).
  - destruct (balance_initializeClient
                (set_timers (delete i (timers s)) s)) as (_ & _ & ->).
    by destruct s.
  - apply listening_unwind_stays. by destruct s.
  - by destruct (balance_route r now s) as (_ & _ & ->).
Qed.

Lemma listening_run_stays trace s s1 :
  run trace s = Some s1 -> listening s = true -> listening s1 = true.
Proof.
  revert s. induction trace as [|[now a] rest IH]; intros s Hrun Hs.
  - by simplify_eq/=.
  - cbn in Hrun. destruct (step now a s) as [s2|] eqn:Hstep; [|done].
    eauto using listening_step_stays.
Qed.

(** Settling the call chain of [startServer], either way, makes the server
    listen. *)
Lemma startup_settles o now s :
  listening (unwind startup o now s).1 = true /\
  (unwind startup o now s).2 = [].
Proof.
  destruct o; destruct s; cbn; [done|].
  unfold initializeClient_catch. cbn. by case_match.
Qed.

Lemma starting_step now a s s1 :
  step now a s = Some s1 -> starting s -> starting s1 \/ listening s1 = true.
Proof.
  intros Hstep (Hoff & Hin & Hnone & Hzero).
  destruct (listening s1) eqn:Hs1; [by right|]. left.
  pose proof (accounting_step _ _ _ _ Hstep) as Hsum.
  rewrite Hnone, Hzero in Hsum. cbn in Hsum.
  assert (Hserved : served a = 0).
  { destruct a; try done. unfold step in Hstep. by rewrite Hoff in Hstep. }
  rewrite Hserved in Hsum.
  split; [done|]. split; [|split; [apply length_zero_iff_nil|]; lia].
  unfold step in Hstep. repeat case_match; simplify_eq.
  - apply elem_of_tasks_spawn.
    by destruct (balance_handle e s) as (_ & -> & _).
  - apply elem_of_tasks_spawn.
    destruct (balance_initializeClient
                (set_timers (delete i (timers s)) s)) as (_ & -> & _).
    by destruct s.
  - apply elem_of_tasks_spawn.
    destruct (balance_unwind l o now (set_tasks (delete i (tasks s)) s))
      as (_ & ->).
    destruct (decide (startup = l)) as [<-|Hne].
    + rewrite listening_spawn in Hs1.
      destruct (startup_settles o now (set_tasks (delete i (tasks s)) s))
        as [Hup _]. congruence.
    + destruct s. cbn in *. eauto using elem_of_delete_other.
Qed.

Lemma starting_run trace s s1 :
  run trace s = Some s1 -> starting s -> starting s1 \/ listening s1 = true.
Proof.
  revert s. induction trace as [|[now a] rest IH]; intros s Hrun Hs.
  - simplify_eq/=. by left.
  - cbn in Hrun. destruct (step now a s) as [s2|] eqn:Hstep; [|done].
    destruct (starting_step _ _ _ _ Hstep Hs) as [Hs2|Hs2]; [eauto|].
    right. eauto using listening_run_stays.
Qed.

Lemma starting_booted : starting booted.
Proof.
  repeat split. apply list_elem_of_singleton. reflexivity.
Qed.

End Listening.

(** X4.  The server begins to listen when the first [initialize()] settles,
    whether it resolves or is rejected, and not before: until then the call
    chain of [startServer] waits among the tasks and nothing has been
    answered; settling it makes the server listen; and a server that
    listens goes on listening whatever comes. *)
Theorem server_listens_after_first_initialize trace s :
  run trace booted = Some s ->
  (listening s = false ->
   responses s = [] /\
   exists i, tasks s !! i = Some [IC_initialize; SS_init]) /\
  (forall i o now,
     tasks s !! i = Some [IC_initialize; SS_init] ->
     exists s1, step now (Settle i o) s = Some s1 /\ listening s1 = true) /\
  (listening s = true ->
   forall trace2 s2, run trace2 s = Some s2 -> listening s2 = true).
Proof.
  intros Hrun. split; [|split].
  - intros Hoff.
    destruct (starting_run _ _ _ Hrun starting_booted)
      as [(_ & Hin & Hnone & _)|Hon]; [|congruence].
    split; [done|]. by apply list_elem_of_lookup_1.
  - intros i o now Hi. eexists. split.
    { unfold step. rewrite Hi. reflexivity. }
    rewrite listening_spawn.
    by destruct (startup_settles o now (set_tasks (delete i (tasks s)) s)).
  - intros Hon trace2 s2 Hrun2. eauto using listening_run_stays.
Qed.

Lemma server_listens_after_first_initialize_witness :
  run [("t", Emit 0 (Disconnected "NAVIGATION"))] booted = Some reconnecting /\
  listening reconnecting = false /\
  responses reconnecting = [] /\
  tasks reconnecting !! 0 = Some [IC_initialize; SS_init] /\
  exists s1,
    step "t" (Settle 0 (Rejected "Protocol error")) reconnecting = Some s1 /\
    listening s1 = true.
Proof.
  destruct (server_listens_after_first_initialize
              [("t", Emit 0 (Disconnected "NAVIGATION"))] reconnecting
              eq_refl) as (Hbefore & Hsettle & _).
  destruct (Hbefore eq_refl) as [Hnone _].
  split; [done|]. split; [done|]. split; [exact Hnone|]. split; [done|].
  exact (Hsettle 0 (Rejected "Protocol error") "t" eq_refl).
Defined.

(** ** When [initialize()] settles *)

(** X5.  [initialize()] settling, for a chain started by a timer ([[]]), by
    [startServer] or by POST /restart.  Resolved, it changes no variable, so
    it does not free the lock.  Rejected,
    it frees the lock and leaves the other variables alone, calls neither
    [cleanSession] nor [destroy()], and arms one timer of 5000 ms when the
    counter is below the ceiling and none at the ceiling. *)
Theorem initialize_settlement_policy s i callers now :
  tasks s !! i = Some (IC_initialize :: callers) ->
  callers = [] \/ callers = [SS_init] \/ callers = [RS_init] ->
  (exists s1,
     step now (Settle i Resolved) s = Some s1 /\
     lifecycle s1 = lifecycle s /\
     timers s1 = timers s /\
     tasks s1 = delete i (tasks s)) /\
  (forall message, exists s1,
     step now (Settle i (Rejected message)) s = Some s1 /\
     isInitializing s1 = false /\
     client s1 = client s /\
     isClientReady s1 = isClientReady s /\
     qrCodeString s1 = qrCodeString s /\
     initializationAttempts s1 = initializationAttempts s /\
     created s1 = created s /\
     rmCalls s1 = rmCalls s /\
     destroyCalls s1 = destroyCalls s /\
     tasks s1 = delete i (tasks s) /\
     (initializationAttempts s < MAX_INIT_ATTEMPTS ->
      timers s1 = timers s ++ [5000%N]) /\
     (MAX_INIT_ATTEMPTS <= initializationAttempts s ->
      timers s1 = timers s)).
Proof.
  intros Hi Hcallers. split.
  - eexists. split; [unfold step; rewrite Hi; reflexivity|].
    destruct Hcallers as [->|[->| ->]]; by destruct s.
  - intros message. eexists.
    split; [unfold step; rewrite Hi; reflexivity|].
    assert (Hcatch : forall t,
              initializationAttempts t = initializationAttempts s ->
              timers t = timers s ->
              (initializationAttempts s < MAX_INIT_ATTEMPTS ->
               timers (initializeClient_catch t) = timers s ++ [5000%N]) /\
              (MAX_INIT_ATTEMPTS <= initializationAttempts s ->
               timers (initializeClient_catch t) = timers s)).
    { intros t Hn Ht. unfold initializeClient_catch.
      replace (initializationAttempts (set_isInitializing false t))
        with (initializationAttempts s) by (by destruct t).
      destruct (Nat.ltb_spec (initializationAttempts s) MAX_INIT_ATTEMPTS);
        (split; intros; [|]); try lia; destruct t; cbn in *; by subst. }
    destruct (Hcatch (set_tasks (delete i (tasks s)) s)) as [Hbelow Hat];
      [by destruct s|by destruct s|].
    destruct Hcallers as [->|[->| ->]]; cbn;
      (repeat split;
       [by open_state s .. | intros Hlt | intros Hge]);
      try (rewrite <- (Hbelow Hlt)); try (rewrite <- (Hat Hge));
      unfold initializeClient_catch; open_state s.
Qed.

Lemma initialize_settlement_policy_witness :
  tasks booted !! 0 = Some [IC_initialize; SS_init] /\
  initializationAttempts booted < MAX_INIT_ATTEMPTS /\
  (exists s1,
     step "t" (Settle 0 (Rejected "Timeout")) booted = Some s1 /\
     isInitializing s1 = false /\
     rmCalls s1 = 0 /\
     timers s1 = [5000%N]) /\
  tasks exhausted !! 1 = Some [IC_initialize] /\
  MAX_INIT_ATTEMPTS <= initializationAttempts exhausted /\
  (exists s1,
     step "t" (Settle 1 (Rejected "Timeout")) exhausted = Some s1 /\
     timers s1 = []).
Proof.
  destruct (initialize_settlement_policy booted 0 [SS_init] "t" eq_refl)
    as [_ Hboot]; [auto|].
  destruct (Hboot "Timeout")
    as (s1 & Hstep1 & Hlock1 & _ & _ & _ & _ & _ & Hrm1 & _ & _ & Hbelow & _).
  destruct (initialize_settlement_policy exhausted 1 [] "t" eq_refl)
    as [_ Hlast]; [auto|].
  destruct (Hlast "Timeout")
    as (s2 & Hstep2 & _ & _ & _ & _ & _ & _ & _ & _ & _ & _ & Hat).
  assert (H1 : initializationAttempts booted < MAX_INIT_ATTEMPTS)
    by (vm_compute; lia).
  assert (H3 : MAX_INIT_ATTEMPTS <= initializationAttempts exhausted)
    by (vm_compute; lia).
  split; [done|]. split; [done|]. split.
  { exists s1. split; [done|]. split; [done|]. split; [done|].
    exact (Hbelow H1). }
  split; [done|]. split; [done|].
  exists s2. split; [done|]. exact (Hat H3).
Defined.

(** ** POST /clean-session *)

(** X6.  POST /clean-session destroys the current client, then removes the
    session, then clears the readiness flag, sets the counter to 0, arms one
    timer of 2000 ms and acknowledges; it makes no client itself and leaves
    the lock as it found it.  When that timer goes off with the lock free,
    an initialization begins: the lock is taken, the attempt counted and the
    client destroyed once more.  When it goes off with the lock held, it is
    disarmed and nothing else happens, although the request was
    acknowledged as "Session cleaned and client reinitialized".  (The task
    of the request and its timer sit at the end of their lists; nothing else
    is taken to happen in between.) *)
Theorem clean_session_route_effect s c now o1 o2 :
  listening s = true ->
  client s = Some c ->
  exists s1,
    run [(now, Http PostCleanSession); (now, Settle (length (tasks s)) o1);
         (now, Settle (length (tasks s)) o2)] s = Some s1 /\
    isClientReady s1 = false /\
    initializationAttempts s1 = 0 /\
    isInitializing s1 = isInitializing s /\
    client s1 = Some c /\
    created s1 = created s /\
    destroyCalls s1 = destroyCalls s ++ [c] /\
    rmCalls s1 = S (rmCalls s) /\
    timers s1 = timers s ++ [2000%N] /\
    tasks s1 = tasks s /\
    responses s1
    = responses s ++
      [acknowledge "Session cleaned and client reinitialized" now] /\
    exists s2,
      step now (Fire (length (timers s))) s1 = Some s2 /\
      timers s2 = timers s /\
      created s2 = created s /\
      (isInitializing s = true ->
       lifecycle s2 = lifecycle s1 /\
       tasks s2 = tasks s /\
       destroyCalls s2 = destroyCalls s1) /\
      (isInitializing s = false ->
       isInitializing s2 = true /\
       initializationAttempts s2 = 1 /\
       destroyCalls s2 = destroyCalls s ++ [c; c] /\
       tasks s2 = tasks s ++ [[IC_destroy]]).
Proof.
  intros Hlisten Hclient.
  destruct s as [cl rd qr n lk cr rm ds lo tm tk li rs]. cbn in *. subst.
  eexists. split.
  { cbn. rewrite lookup_last, delete_last. cbn.
    rewrite lookup_last, delete_last. cbn. reflexivity. }
  cbn. do 10 (split; [reflexivity|]).
  eexists. split.
  { unfold step. cbn. rewrite lookup_last, delete_last. reflexivity. }
  destruct lk; cbn; repeat split; try done.
  by rewrite <- app_assoc.
Qed.

Lemma clean_session_route_effect_witness :
  listening scanning = true /\
  client scanning = Some 0 /\
  isInitializing scanning = true /\
  exists s1 s2,
    run [("t", Http PostCleanSession); ("t", Settle 0 Resolved);
         ("t", Settle 0 Resolved)] scanning = Some s1 /\
    timers s1 = [2000%N] /\
    rmCalls s1 = 1 /\
    step "t" (Fire 0) s1 = Some s2 /\
    created s2 = 1 /\
    tasks s2 = [] /\
    timers s2 = [].
Proof.
  destruct (clean_session_route_effect scanning 0 "t" Resolved Resolved
              eq_refl eq_refl)
    as (s1 & Hrun & _ & _ & _ & _ & _ & _ & Hrm & Htimers & _ & _ & s2
        & Hfire & Htimers2 & Hcreated2 & Hheld & _).
  destruct (Hheld eq_refl) as (_ & Htasks2 & _).
  do 3 (split; [done|]).
  exists s1, s2. by repeat split.
Defined.

(** ** Two initializations at the ceiling *)

(** Looks up and removes the task at the front of those added last. *)
Ltac settle_front :=
  rewrite ?(list_lookup_middle _ _ _ _ eq_refl), ?delete_middle;
  cbn; rewrite <- ?app_assoc; cbn.

(** X7.  At the ceiling [initializeClient] takes the lock only after
    [cleanSession] has settled, so the guard does not stop a second call
    made in between.  With the lock free, the counter at the ceiling and two
    timers armed, both timers start an initialization: [cleanSession] is
    called twice, the current client is destroyed twice, two clients are
    made of which the first is replaced without ever being destroyed, and
    the counter reads one attempt. *)
Theorem ceiling_entry_is_unguarded s c d1 d2 rest now o1 o2 o3 o4 :
  isInitializing s = false ->
  MAX_INIT_ATTEMPTS <= initializationAttempts s ->
  client s = Some c ->
  timers s = d1 :: d2 :: rest ->
  exists s1,
    run [(now, Fire 0); (now, Fire 0);
         (now, Settle (length (tasks s)) o1);
         (now, Settle (length (tasks s)) o2);
         (now, Settle (length (tasks s)) o3);
         (now, Settle (length (tasks s)) o4)] s = Some s1 /\
    created s1 = S (S (created s)) /\
    client s1 = Some (S (created s)) /\
    rmCalls s1 = S (S (rmCalls s)) /\
    destroyCalls s1 = destroyCalls s ++ [c; c] /\
    initializationAttempts s1 = 1 /\
    isInitializing s1 = true /\
    timers s1 = rest /\
    tasks s1 = tasks s ++ [[IC_initialize]; [IC_initialize]].
Proof.
  intros Hfree Hmax Hclient Htimers.
  destruct s as [cl rd qr n lk cr rm ds lo tm tk li rs]. cbn in *. subst.
  unfold MAX_INIT_ATTEMPTS in Hmax.
  destruct n as [|[|[|n]]]; try lia.
  eexists. split.
  { cbn. do 5 settle_front. reflexivity. }
  cbn. repeat split.
Qed.

Lemma ceiling_entry_is_unguarded_witness :
  run [("t", Emit 2 (Disconnected "NAVIGATION"));
       ("t", Emit 2 (Disconnected "CONFLICT"))] exhausted
  = Some twice_disconnected /\
  isInitializing twice_disconnected = false /\
  MAX_INIT_ATTEMPTS <= initializationAttempts twice_disconnected /\
  client twice_disconnected = Some 2 /\
  exists s1,
    run [("t", Fire 0); ("t", Fire 0); ("t", Settle 3 Resolved);
         ("t", Settle 3 Resolved); ("t", Settle 3 Resolved);
         ("t", Settle 3 Resolved)] twice_disconnected = Some s1 /\
    created s1 = 5 /\
    client s1 = Some 4 /\
    destroyCalls s1 = [0; 1; 2; 2] /\
    initializationAttempts s1 = 1.
Proof.
  assert (Hmax : MAX_INIT_ATTEMPTS
                 <= initializationAttempts twice_disconnected)
    by (vm_compute; lia).
  destruct (ceiling_entry_is_unguarded twice_disconnected 2 10000 10000 []
              "t" Resolved Resolved Resolved Resolved
              eq_refl Hmax eq_refl eq_refl)
    as (s1 & Hrun & Hcreated & Hclient & _ & Hdestroyed & Hcount & _).
  do 4 (split; [done|]).
  exists s1. by repeat split.
Defined.

(** ** Three views of readiness *)



(** * Properties of the routes behind the middleware *)

(** ** Chat ids *)

Section ChatIds.

Lemma prefix_same p : String.prefix p p = true.
Proof.
  induction p as [|a p IH]; [done|]. cbn.
  by destruct (Ascii.ascii_dec a a).
Qed.

Lemma includes_same p : includes p p = true.
Proof.
  destruct p as [|a p]; [done|].
  cbn [includes]. by rewrite prefix_same.
Qed.

Lemma includes_appended s p : includes (s +:+ p) p = true.
Proof.
  induction s as [|a s IH]; [apply includes_same|].
  change (String a s +:+ p) with (String a (s +:+ p)).
  cbn [includes]. rewrite IH. apply orb_true_r.
Qed.

End ChatIds.

Lemma chatIdOfNumber_plain number :
  includes number "@c.us" = false ->
  chatIdOfNumber number = number +:+ "@c.us".
Proof. unfold chatIdOfNumber. by intros ->. Qed.

Lemma chatIdOfNumber_idempotent number :
  chatIdOfNumber (chatIdOfNumber number) = chatIdOfNumber number.
Proof.
  assert (Hin : includes (chatIdOfNumber number) "@c.us" = true).
  { unfold chatIdOfNumber.
    destruct (includes number "@c.us") eqn:Hn; [done|].
    apply includes_appended. }
  unfold chatIdOfNumber at 1. by rewrite Hin.
Qed.

(** X9.  The chat id a lookup route builds from [number] always contains
    "@c.us": a number that contains it already is taken as it is, wherever
    it stands in the string, and any other gets it appended, also the id of
    a group.  Building the id from an id changes nothing. *)
Theorem chat_id_of_number number :
  includes (chatIdOfNumber number) "@c.us" = true /\
  chatIdOfNumber (chatIdOfNumber number) = chatIdOfNumber number /\
  (includes number "@c.us" = true -> chatIdOfNumber number = number) /\
  (includes number "@c.us" = false ->
   chatIdOfNumber number = number +:+ "@c.us").
Proof.
  assert (Hin : includes (chatIdOfNumber number) "@c.us" = true).
  { unfold chatIdOfNumber.
    destruct (includes number "@c.us") eqn:Hn; [done|].
    apply includes_appended. }
  split; [done|]. split.
  - unfold chatIdOfNumber at 1. by rewrite Hin.
  - unfold chatIdOfNumber. split; by intros ->.
Qed.

Lemma chat_id_of_number_witness :
  includes "4915112345678" "@c.us" = false /\
  chatIdOfNumber "4915112345678" = "4915112345678@c.us" /\
  includes "4915112345678@c.us" "@c.us" = true /\
  chatIdOfNumber "4915112345678@c.us" = "4915112345678@c.us" /\
  chatIdOfNumber "120363041234567890@g.us" = "120363041234567890@g.us@c.us".
Proof.
  destruct (chat_id_of_number "4915112345678") as (_ & _ & _ & Hplain).
  destruct (chat_id_of_number "4915112345678@c.us") as (_ & _ & Hid & _).
  destruct (chat_id_of_number "120363041234567890@g.us")
    as (_ & _ & _ & Hgroup).
  split; [done|]. split; [exact (Hplain eq_refl)|]. split; [done|].
  split; [exact (Hid eq_refl)|]. exact (Hgroup eq_refl).
Defined.

(** X10.  The chat id a sending route builds from [to] always contains
    "@c.us" or "@g.us": the id of a group and the id of a contact are taken
    as they are, and anything else gets "@c.us" appended.  Building it from
    an id changes nothing, and it differs from the id of the lookup routes
    only on the ids of groups. *)
Theorem chat_id_of_recipient to :
  includes (chatIdOfRecipient to) "@c.us"
  || includes (chatIdOfRecipient to) "@g.us" = true /\
  chatIdOfRecipient (chatIdOfRecipient to) = chatIdOfRecipient to /\
  (includes to "@g.us" = true -> chatIdOfRecipient to = to) /\
  (includes to "@g.us" = false -> chatIdOfRecipient to = chatIdOfNumber to).
Proof.
  assert (Hin : includes (chatIdOfRecipient to) "@c.us"
                || includes (chatIdOfRecipient to) "@g.us" = true).
  { unfold chatIdOfRecipient.
    destruct (includes to "@c.us" || includes to "@g.us") eqn:Hto; [done|].
    by rewrite includes_appended. }
  split; [done|]. split.
  - unfold chatIdOfRecipient at 1. by rewrite Hin.
  - unfold chatIdOfRecipient, chatIdOfNumber. split; intros ->.
    + by rewrite orb_true_r.
    + by rewrite orb_false_r.
Qed.

Lemma chat_id_of_recipient_witness :
  includes "120363041234567890@g.us" "@g.us" = true /\
  chatIdOfRecipient "120363041234567890@g.us" = "120363041234567890@g.us" /\
  includes "4915112345678" "@g.us" = false /\
  chatIdOfRecipient "4915112345678" = "4915112345678@c.us".
Proof.
  destruct (chat_id_of_recipient "120363041234567890@g.us")
    as (_ & _ & Hgroup & _).
  destruct (chat_id_of_recipient "4915112345678") as (_ & _ & _ & Hplain).
  split; [done|]. split; [exact (Hgroup eq_refl)|]. split; [done|].
  by rewrite (Hplain eq_refl).
Defined.

(** ** The window of GET /get_message_context *)

Section MessageContext.

Variable parseInt : string -> num.

Lemma findIndex_first {A} (p : A -> bool) (l : list A) i x :
  l !! i = Some x ->
  p x = true ->
  (forall j y, j < i -> l !! j = Some y -> p y = false) ->
  findIndex p l = Z.of_nat i.
Proof.
  revert i. induction l as [|x0 l IH]; intros i Hi Hx Hbefore; [done|].
  destruct i as [|i]; cbn in *.
  - simplify_eq. by rewrite Hx.
  - rewrite (Hbefore 0 x0) by (done || lia).
    rewrite (IH i Hi Hx).
    + destruct (Z.eqb_spec (Z.of_nat i) (-1)); lia.
    + intros j y Hj Hy. apply (Hbefore (S j) y); [lia|done].
Qed.

Lemma findIndex_none {A} (p : A -> bool) (l : list A) :
  Forall (fun x => p x = false) l -> findIndex p l = (-1)%Z.
Proof.
  induction 1 as [|x l Hx _ IH]; [done|]. cbn. by rewrite Hx, IH.
Qed.

Lemma slice_within {A} (l : list A) (k final : Z) :
  (0 <= k)%Z -> (k <= final)%Z -> (final <= Z.of_nat (length l))%Z ->
  slice l (Int k) (Int final)
  = take (Z.to_nat final - Z.to_nat k) (drop (Z.to_nat k) l).
Proof.
  intros Hk Hfinal Hlen. unfold slice, relative.
  destruct (Z.ltb_spec k 0); [lia|].
  destruct (Z.ltb_spec final 0); [lia|].
  rewrite !Z.min_l by lia. f_equal. lia.
Qed.


(** X11.  GET /get_message_context with numeric [before] and [after] that
    are not negative, when the fetched messages hold the id asked for, first
    at index [i]: the context is the stretch of the fetched messages from
    [before] places ahead of [i] (or from the first one) to [after] places
    past it (or to the last one), in their order and at most
    [before + after + 1] long; [targetMessageIndex] is the place of that
    message in the context, the entry there is marked as the target and no
    entry ahead of it is.  With [before] and [after] absent both are 5. *)
Theorem message_context_window chatId m before after messages b a i target :
  truthy chatId = true ->
  m <> EmptyString ->
  parsed parseInt 5 before = Int b ->
  parsed parseInt 5 after = Int a ->
  (0 <= b)%Z ->
  (0 <= a)%Z ->
  messages !! i = Some target ->
  msg_id target = m ->
  (forall j msg, j < i -> messages !! j = Some msg -> msg_id msg <> m) ->
  exists ctx,
    get_message_context parseInt chatId (Some m) before after
      (Fulfilled messages)
    = Json (ContextBody ctx (Int (Z.of_nat (min i (Z.to_nat b))))) /\
    ctx = map (contextEntry m)
            (take (min (length messages) (i + Z.to_nat a + 1)
                   - (i - Z.to_nat b))
               (drop (i - Z.to_nat b) messages)) /\
    ctx !! min i (Z.to_nat b) = Some (contextEntry m target) /\
    ce_isTarget (contextEntry m target) = true /\
    (forall j e, j < min i (Z.to_nat b) -> ctx !! j = Some e ->
                 ce_isTarget e = false) /\
    length ctx <= Z.to_nat b + Z.to_nat a + 1.
Proof.
  intros Hchat Hm Hb Ha Hb0 Ha0 Hi Htarget Hfirst.
  pose proof (lookup_lt_Some _ _ _ Hi) as Hlen.
  eexists. split; [|split; [reflexivity|]].
  - unfold get_message_context. rewrite Hchat. cbn [negb orb truthy].
    rewrite bool_decide_eq_false_2 by done. cbn [negb default].
    rewrite (findIndex_first _ messages i target Hi).
    2: { by apply bool_decide_eq_true_2. }
    2: { intros j y Hj Hy. apply bool_decide_eq_false_2. eauto. }
    destruct (Z.eqb_spec (Z.of_nat i) (-1)); [lia|].
    rewrite Hb, Ha. cbn [num_sub num_add Math_max Math_min].
    rewrite slice_within by lia.
    do 3 f_equal.
    + f_equal; [lia|f_equal; lia].
    + lia.
  - split; [|split; [|split]].
    + rewrite list_lookup_fmap, lookup_take_lt by lia.
      rewrite lookup_drop.
      replace (i - Z.to_nat b + min i (Z.to_nat b)) with i by lia.
      by rewrite Hi.
    + cbn. by apply bool_decide_eq_true_2.
    + intros j e Hj He.
      rewrite list_lookup_fmap in He.
      destruct (take _ _ !! j) as [msg|] eqn:Hmsg; [|done].
      cbn in He. simplify_eq.
      apply lookup_take_Some in Hmsg as [Hmsg _].
      rewrite lookup_drop in Hmsg.
      cbn. apply bool_decide_eq_false_2.
      apply (Hfirst (i - Z.to_nat b + j) msg); [lia|done].
    + rewrite length_map, length_take, length_drop. lia.
Qed.


(** X12.  The other ways GET /get_message_context ends.  A missing or empty
    [chatId] or [messageId] is refused with 400, whatever the capability
    would give.  A rejection by the capability is thrown on to the error
    middleware.  When no fetched message has the id the answer is 404.  An
    [after] that [parseInt] cannot read gives an empty context; a [before]
    that it cannot read gives the context from the first fetched message on
    and [NaN], sent as [null], for [targetMessageIndex]. *)
Theorem message_context_edges chatId messageId before after fetched :
  (truthy chatId = false \/ truthy messageId = false ->
   get_message_context parseInt chatId messageId before after fetched
   = Refused 400 "chatId and messageId parameters are required") /\
  (truthy chatId = true ->
   truthy messageId = true ->
   (forall error,
      fetched = RejectedWith error ->
      get_message_context parseInt chatId messageId before after fetched
      = Thrown error) /\
   (forall messages,
      fetched = Fulfilled messages ->
      Forall (fun msg => Some (msg_id msg) <> messageId) messages ->
      get_message_context parseInt chatId messageId before after fetched
      = Refused 404 "Message not found") /\
   (forall messages i target,
      fetched = Fulfilled messages ->
      messages !! i = Some target ->
      Some (msg_id target) = messageId ->
      (forall j msg, j < i -> messages !! j = Some msg ->
                     msg_id msg <> msg_id target) ->
      (parsed parseInt 5 after = NaN ->
       exists t,
         get_message_context parseInt chatId messageId before after fetched
         = Json (ContextBody [] t)) /\
      (parsed parseInt 5 before = NaN ->
       forall a,
         parsed parseInt 5 after = Int a ->
         (0 <= a)%Z ->
         get_message_context parseInt chatId messageId before after fetched
         = Json (ContextBody
                   (map (contextEntry (msg_id target))
                      (take (min (length messages) (i + Z.to_nat a + 1))
                         messages))
                   NaN)))).
Proof.
  split.
  - intros [H|H]; unfold get_message_context; rewrite H; cbn;
      [done|by rewrite orb_true_r].
  - intros Hchat Hmessage.
    assert (Hstart : forall r,
              get_message_context parseInt chatId messageId before after
                fetched = r <->
              match fetched with
              | RejectedWith message => Thrown message
              | Fulfilled messages =>
                  let messageId := default EmptyString messageId in
                  let messageIndex :=
                    findIndex (fun m => bool_decide (msg_id m = messageId))
                      messages in
                  if (messageIndex =? -1)%Z
                  then Refused 404 "Message not found"
                  else
                    let startIndex :=
                      Math_max (Int 0)
                        (num_sub (Int messageIndex) (parsed parseInt 5 before))
                    in
                    let endIndex :=
                      Math_min (Int (Z.of_nat (length messages)))
                        (num_add
                           (num_add (Int messageIndex)
                              (parsed parseInt 5 after)) (Int 1)) in
                    Json (ContextBody
                            (map (contextEntry messageId)
                               (slice messages startIndex endIndex))
                            (num_sub (Int messageIndex) startIndex))
              end = r).
    { intros r. unfold get_message_context. by rewrite Hchat, Hmessage. }
    split; [|split].
    + intros error ->. by apply Hstart.
    + intros messages -> Hnone. apply Hstart. cbn zeta.
      rewrite findIndex_none; [done|].
      eapply Forall_impl; [exact Hnone|]. cbn. intros msg Hmsg.
      apply bool_decide_eq_false_2. intros Heq. apply Hmsg.
      destruct messageId; cbn in *; by subst.
    + intros messages i target -> Hi <- Hfirst.
      pose proof (lookup_lt_Some _ _ _ Hi) as Hlen.
      assert (Hindex :
                findIndex
                  (fun m => bool_decide (msg_id m = msg_id target)) messages
                = Z.of_nat i).
      { apply (findIndex_first _ messages i target Hi).
        - by apply bool_decide_eq_true_2.
        - intros j y Hj Hy. apply bool_decide_eq_false_2. eauto. }
      split.
      * intros Hafter. eexists. apply Hstart. cbn zeta. cbn [from_option id].
        rewrite Hindex, Hafter.
        destruct (Z.eqb_spec (Z.of_nat i) (-1)); [lia|].
        cbn [num_add Math_min]. unfold slice. cbn [relative].
        replace (Z.to_nat (0 - _)) with 0 by
          (destruct (Math_max _ _) as [|z]; cbn;
           [lia|destruct (Z.ltb_spec z 0); lia]).
        reflexivity.
      * intros Hbefore a Hafter Ha. apply Hstart. cbn zeta. cbn [from_option id].
        rewrite Hindex, Hafter, Hbefore.
        destruct (Z.eqb_spec (Z.of_nat i) (-1)); [lia|].
        cbn [num_add num_sub Math_min Math_max]. unfold slice.
        cbn [relative].
        destruct (Z.ltb_spec (Z.min (Z.of_nat (length messages))
                                (Z.of_nat i + a + 1)) 0); [lia|].
        rewrite Z.min_l by lia. cbn [drop Z.to_nat]. rewrite drop_0.
        repeat f_equal. lia.
Qed.

End MessageContext.

Lemma message_context_window_witness :
  truthy (Some "4915112345678@c.us") = true /\
  sample_messages !! 2 = Some (textMessage "m3" "how are you" false) /\
  get_message_context digit_or_NaN (Some "4915112345678@c.us") (Some "m3")
    (Some "1") (Some "2") (Fulfilled sample_messages)
  = Json (ContextBody
            [ContextEntry "m2" "hi" "chat" 1700000000 true false;
             ContextEntry "m3" "how are you" "chat" 1700000000 false true;
             ContextEntry "m4" "fine" "chat" 1700000000 true false]
            (Int 1)).
Proof.
  assert (Hm : "m3" <> EmptyString) by done.
  assert (Hfirst : forall j msg, j < 2 -> sample_messages !! j = Some msg ->
                                 msg_id msg <> "m3").
  { intros [|[|j]] msg Hj Hmsg; cbn in Hmsg; simplify_eq; try done. lia. }
  destruct (message_context_window digit_or_NaN (Some "4915112345678@c.us")
              "m3" (Some "1") (Some "2") sample_messages 1 2 2
              (textMessage "m3" "how are you" false)
              eq_refl Hm eq_refl eq_refl ltac:(lia) ltac:(lia) eq_refl
              eq_refl Hfirst) as (ctx & Hreply & Hctx & _).
  split; [done|]. split; [done|].
  rewrite Hreply, Hctx. reflexivity.
Defined.

Lemma message_context_edges_witness :
  truthy (None : option string) = false /\
  get_message_context digit_or_NaN None (Some "m3") None None
    (Fulfilled sample_messages)
  = Refused 400 "chatId and messageId parameters are required" /\
  get_message_context digit_or_NaN (Some "c") (Some "m9") None None
    (Fulfilled sample_messages)
  = Refused 404 "Message not found" /\
  get_message_context digit_or_NaN (Some "c") (Some "m3") (Some "two") None
    (Fulfilled sample_messages)
  = Json (ContextBody
            (map (contextEntry "m3") sample_messages) NaN).
Proof.
  destruct (message_context_edges digit_or_NaN None (Some "m3") None None
              (Fulfilled sample_messages)) as [Hmissing _].
  destruct (message_context_edges digit_or_NaN (Some "c") (Some "m9") None
              None (Fulfilled sample_messages)) as [_ Hfound].
  destruct (Hfound eq_refl eq_refl) as (_ & Hnone & _).
  destruct (message_context_edges digit_or_NaN (Some "c") (Some "m3")
              (Some "two") None (Fulfilled sample_messages)) as [_ Hnan].
  destruct (Hnan eq_refl eq_refl) as (_ & _ & Hedge).
  destruct (Hedge sample_messages 2 (textMessage "m3" "how are you" false)
              eq_refl eq_refl eq_refl) as [_ Hbefore].
  { intros [|[|j]] msg Hj Hmsg; cbn in Hmsg; simplify_eq; try done. lia. }
  split; [done|]. split; [apply Hmissing; by left|]. split.
  - apply (Hnone sample_messages eq_refl). by repeat constructor.
  - exact (Hbefore eq_refl 5%Z eq_refl ltac:(lia)).
Defined.

(** ** GET /get_chats and GET /list_messages *)

Section Listings.

Variable parseInt : string -> num.

Lemma slice_from_start {A} (l : list A) (finish : num) :
  slice l (Int 0) finish
  = take (Z.to_nat (relative finish (Z.of_nat (length l)))) l.
Proof.
  unfold slice. cbn [relative]. rewrite Z.ltb_irrefl.
  rewrite Z.min_l by lia. cbn [Z.to_nat drop]. by rewrite Z.sub_0_r.
Qed.

Lemma slice_first {A} (l : list A) (n : Z) :
  (0 <= n)%Z -> slice l (Int 0) (Int n) = take (Z.to_nat n) l.
Proof.
  intros Hn. rewrite slice_from_start. cbn [relative].
  destruct (Z.ltb_spec n 0); [lia|].
  destruct (Z.le_ge_cases n (Z.of_nat (length l))).
  - by rewrite Z.min_l.
  - rewrite Z.min_r, Nat2Z.id by lia. rewrite !take_ge; [done|lia..].
Qed.

Lemma slice_all_but {A} (l : list A) (n : Z) :
  (n < 0)%Z ->
  slice l (Int 0) (Int n) = take (length l - Z.to_nat (- n)) l.
Proof.
  intros Hn. rewrite slice_from_start. cbn [relative].
  destruct (Z.ltb_spec n 0); [|lia]. f_equal. lia.
Qed.

(** X13.  GET /get_chats lists, in the order of the capability, the first
    [limit] chats, or the first 50 when no limit is given, of the chats with
    unread messages when [unreadOnly] is the string "true" and of all chats
    for any other value; [count] is the number of chats listed.  A negative
    limit leaves that many chats off the end, and a limit that [parseInt]
    cannot read lists nothing. *)
Theorem get_chats_listing limit unreadOnly all :
  exists filtered listed body,
    get_chats parseInt limit unreadOnly (Fulfilled all) = Json body /\
    chats body = map listedChat listed /\
    count body = Z.of_nat (length (chats body)) /\
    (unreadOnly = Some "true" ->
     filtered = filter (fun c => (0 < chat_unreadCount c)%Z) all) /\
    (unreadOnly <> Some "true" -> filtered = all) /\
    (limit = None -> listed = take 50 filtered) /\
    (forall n, parsed parseInt 50 limit = Int n -> (0 <= n)%Z ->
               listed = take (Z.to_nat n) filtered) /\
    (forall n, parsed parseInt 50 limit = Int n -> (n < 0)%Z ->
               listed = take (length filtered - Z.to_nat (- n)) filtered) /\
    (parsed parseInt 50 limit = NaN -> listed = []).
Proof.
  exists (if bool_decide (unreadOnly = Some "true")
          then filter (fun c => (0 < chat_unreadCount c)%Z) all
          else all).
  eexists. eexists. split; [reflexivity|]. cbn [chats count].
  split; [reflexivity|]. split; [done|].
  split; [|split; [|split; [|split; [|split]]]].
  - intros H. by rewrite bool_decide_eq_true_2.
  - intros H. by rewrite bool_decide_eq_false_2.
  - intros ->. by apply (slice_first _ 50).
  - intros n -> Hn. by apply slice_first.
  - intros n -> Hn. by apply slice_all_but.
  - intros ->. by rewrite slice_from_start.
Qed.

End Listings.

(** X14.  GET /list_messages refuses a missing or empty [chatId] with 400
    before it asks the capability.  Otherwise it lists, in their order, the
    fetched messages that pass both filters: a non-empty [type] keeps the
    messages of that type, and a [fromMe] that is given keeps the messages
    sent by the account when it is the string "true" and those of others
    for every other value, "True" and "1" included.  With neither filter
    every fetched message is listed. *)
Theorem list_messages_filters chatId type fromMe c fetched :
  (truthy chatId = false ->
   forall result, list_messages chatId type fromMe result
                  = Refused 400 "chatId parameter is required") /\
  (truthy chatId = true ->
   exists kept,
     list_messages chatId type fromMe (Fulfilled (c, fetched))
     = Json (MessagesBody (map listedMessage kept)
               (ChatInfo (chat_id c) (chat_name c) (chat_isGroup c)
                  (participantCount c))) /\
     kept `sublist_of` fetched /\
     (forall msg,
        msg ∈ kept <->
        msg ∈ fetched /\
        (truthy type = true -> Some (msg_type msg) = type) /\
        (forall text, fromMe = Some text ->
                      msg_fromMe msg = bool_decide (text = "true"))) /\
     (forall text, fromMe = Some text -> text <> "true" ->
                   Forall (fun msg => msg_fromMe msg = false) kept) /\
     (truthy type = false -> fromMe = None -> kept = fetched)).
Proof.
  split.
  - intros Hchat result. unfold list_messages. by rewrite Hchat.
  - intros Hchat. eexists. split.
    { unfold list_messages. rewrite Hchat. reflexivity. }
    split; [|split; [|split]].
    + destruct fromMe; destruct (truthy type);
        try done; try apply sublist_filter.
      etrans; apply sublist_filter.
    + intros msg. destruct fromMe as [text|]; destruct (truthy type) eqn:Ht;
        rewrite ?list_elem_of_filter; try (destruct type as [t|]; [|done]);
        cbn; (split; [intros H|intros (H1 & H2 & H3)]);
        repeat split; intros; simplify_eq;
        try (intuition (by simplify_eq)); by apply H3.
    + intros text -> Htext. apply Forall_forall. intros msg Hmsg.
      apply list_elem_of_filter in Hmsg as [Hmsg _].
      by rewrite bool_decide_eq_false_2 in Hmsg.
    + by intros -> ->.
Qed.

Lemma get_chats_listing_witness :
  get_chats digit_or_NaN (Some "1") (Some "true") (Fulfilled sample_chats)
  = Json (ChatsBody
            [ListedChat "491511@c.us" "Ada" false false 2 1700000300 None] 1)
  /\
  get_chats digit_or_NaN (Some "many") None (Fulfilled sample_chats)
  = Json (ChatsBody [] 0).
Proof.
  destruct (get_chats_listing digit_or_NaN (Some "1") (Some "true")
              sample_chats)
    as (filtered & listed & body & Hreply & Hchats & Hcount & Hunread & _ & _
        & Hfirst & _).
  destruct (get_chats_listing digit_or_NaN (Some "many") None sample_chats)
    as (filtered2 & listed2 & body2 & Hreply2 & Hchats2 & Hcount2 & _ & _ & _
        & _ & _ & Hnan).
  split.
  - rewrite Hreply. destruct body as [listed_chats n]. cbn in *.
    rewrite Hcount, Hchats, (Hfirst 1%Z eq_refl ltac:(lia)), (Hunread eq_refl).
    reflexivity.
  - rewrite Hreply2. destruct body2 as [listed_chats n]. cbn in *.
    rewrite Hcount2, Hchats2, (Hnan eq_refl). reflexivity.
Defined.

Lemma list_messages_filters_witness :
  truthy (Some "491511@c.us") = true /\
  exists kept,
    list_messages (Some "491511@c.us") None (Some "false")
      (Fulfilled (Chat "491511@c.us" "Ada" false false 2 1700000300 None None,
                  sample_messages))
    = Json (MessagesBody (map listedMessage kept)
              (ChatInfo "491511@c.us" "Ada" false 0)) /\
    Forall (fun msg => msg_fromMe msg = false) kept /\
    textMessage "m1" "hello" false ∈ kept.
Proof.
  destruct (list_messages_filters (Some "491511@c.us") None (Some "false")
              (Chat "491511@c.us" "Ada" false false 2 1700000300 None None)
              sample_messages) as [_ Hlist].
  destruct (Hlist eq_refl) as (kept & Hreply & _ & Hkept & Hothers & _).
  split; [done|]. exists kept. split; [exact Hreply|]. split.
  - by apply (Hothers "false").
  - apply Hkept. split; [apply list_elem_of_here|].
    split; [done|]. by intros text [= <-].
Defined.

(** ** GET /download_media *)

(** X15.  GET /download_media never delivers a file.  It answers at once,
    awaiting nothing and changing nothing but the list of answers: 503 from
    the middleware while the client is not ready, 400 when [chatId] or
    [messageId] is missing or empty, and in every other case 500 with the
    message of the ReferenceError for [ensureDownloadsDir], which the file
    calls and never defines. *)
Theorem download_media_never_succeeds chatId messageId now s :
  exists answer,
    download_media_route chatId messageId now s = (respond answer s, []) /\
    (status answer = 503 \/ status answer = 400 \/ status answer = 500) /\
    (isClientReady s = false -> answer = notReady s) /\
    (isClientReady s = true ->
     truthy chatId = false \/ truthy messageId = false ->
     answer
     = Response 400
         [("error", JStr "chatId and messageId parameters are required")]) /\
    (isClientReady s = true ->
     truthy chatId = true ->
     truthy messageId = true ->
     answer = internalError "ensureDownloadsDir is not defined" now).
Proof.
  unfold download_media_route, requireClientReady, download_media.
  destruct (isClientReady s); cbn [negb].
  - destruct (truthy chatId) eqn:Hchat, (truthy messageId) eqn:Hmessage;
      cbn; eexists; (split; [reflexivity|]); cbn; repeat split;
      try done; auto; intros; by intuition.
  - eexists. split; [reflexivity|]. cbn. repeat split; try done; auto.
Qed.

Lemma download_media_never_succeeds_witness :
  isClientReady connected = true /\
  truthy (Some "491511@c.us") = true /\
  truthy (Some "m2") = true /\
  download_media_route (Some "491511@c.us") (Some "m2") "t" connected
  = (respond
       (Response 500
          [("error", JStr "Internal server error");
           ("message", JStr "ensureDownloadsDir is not defined");
           ("timestamp", JStr "t")]) connected, []).
Proof.
  destruct (download_media_never_succeeds (Some "491511@c.us") (Some "m2")
              "t" connected) as (answer & Hroute & _ & _ & _ & Hthrown).
  do 3 (split; [done|]).
  rewrite Hroute. by rewrite (Hthrown eq_refl eq_refl eq_refl).
Defined.

(** * Retries and reconnection *)

(** X16.  Below the ceiling the guard does its work: of two timers that go
    off one after the other with the lock free, the first takes the lock,
    counts one attempt and destroys the current client, and the second is
    disarmed and nothing more.  (At the ceiling it is otherwise, see
    above.) *)
Theorem guard_serializes_below_ceiling s c d1 d2 rest now :
  isInitializing s = false ->
  initializationAttempts s < MAX_INIT_ATTEMPTS ->
  client s = Some c ->
  timers s = d1 :: d2 :: rest ->
  exists s1,
    run [(now, Fire 0); (now, Fire 0)] s = Some s1 /\
    isInitializing s1 = true /\
    initializationAttempts s1 = S (initializationAttempts s) /\
    destroyCalls s1 = destroyCalls s ++ [c] /\
    rmCalls s1 = rmCalls s /\
    created s1 = created s /\
    timers s1 = rest /\
    tasks s1 = tasks s ++ [[IC_destroy]].
Proof.
  intros Hfree Hbelow Hclient Htimers.
  destruct s as [cl rd qr n lk cr rm ds lo tm tk li rs]. cbn in *. subst.
  unfold MAX_INIT_ATTEMPTS in Hbelow.
  destruct n as [|[|[|n]]]; try lia; eexists; (split; [reflexivity|]);
    by repeat split.
Qed.

Lemma guard_serializes_below_ceiling_witness :
  exists s s1,
    run [("t", Settle 0 Resolved); ("t", Emit 0 Ready);
         ("t", Emit 0 (Disconnected "NAVIGATION"));
         ("t", Emit 0 (Disconnected "CONFLICT"))] booted = Some s /\
    isInitializing s = false /\
    initializationAttempts s < MAX_INIT_ATTEMPTS /\
    timers s = [10000%N; 10000%N] /\
    run [("t", Fire 0); ("t", Fire 0)] s = Some s1 /\
    created s1 = 1 /\
    destroyCalls s1 = [0] /\
    tasks s1 = [[IC_destroy]].
Proof.
  eexists. 
  assert (Hbelow : 0 < MAX_INIT_ATTEMPTS) by (vm_compute; lia).
  destruct (guard_serializes_below_ceiling
              (State (Some 0) false None 0 false 1 0 [] [] [10000%N; 10000%N]
                 [] true [])
              0 10000 10000 [] "t" eq_refl Hbelow eq_refl eq_refl)
    as (s1 & Hrun & _ & _ & Hdestroyed & _ & Hcreated & _ & Htasks).
  exists s1. split; [reflexivity|]. by repeat split.
Defined.

Lemma run_step now a rest s s1 :
  step now a s = Some s1 -> run ((now, a) :: rest) s = run rest s1.
Proof. intros Hstep. cbn. by rewrite Hstep. Qed.

(** X17.  Reconnection after a disconnection.  A [disconnected] event with
    a reason other than "LOGOUT" arms a timer; when it goes off with the
    lock free and the counter below the ceiling, the current client is
    destroyed and, when that has settled, a new client is made and becomes
    the current one, with one more attempt counted and the lock held.  When
    the timer goes off with the lock held, nothing is made.  (The timer and
    the task sit at the end of their lists; nothing else is taken to happen
    in between.) *)
Theorem reconnects_after_disconnect s c emitter reason now o :
  emitter < created s ->
  reason <> "LOGOUT" ->
  client s = Some c ->
  (isInitializing s = false ->
   initializationAttempts s < MAX_INIT_ATTEMPTS ->
   exists s1,
     run [(now, Emit emitter (Disconnected reason));
          (now, Fire (length (timers s)));
          (now, Settle (length (tasks s)) o)] s = Some s1 /\
     client s1 = Some (created s) /\
     created s1 = S (created s) /\
     destroyCalls s1 = destroyCalls s ++ [c] /\
     isClientReady s1 = false /\
     isInitializing s1 = true /\
     initializationAttempts s1 = S (initializationAttempts s) /\
     timers s1 = timers s /\
     tasks s1 = tasks s ++ [[IC_initialize]]) /\
  (isInitializing s = true ->
   exists s1,
     run [(now, Emit emitter (Disconnected reason));
          (now, Fire (length (timers s)))] s = Some s1 /\
     client s1 = Some c /\
     created s1 = created s /\
     destroyCalls s1 = destroyCalls s /\
     isClientReady s1 = false /\
     timers s1 = timers s /\
     tasks s1 = tasks s).
Proof.
  intros Hemitter Hreason Hclient.
  destruct s as [cl rd qr n lk cr rm ds lo tm tk li rs].
  cbn [client created isInitializing initializationAttempts] in *. subst.
  apply Nat.ltb_lt in Hemitter.
  assert (Hevent : forall lock,
            step now (Emit emitter (Disconnected reason))
              (State (Some c) rd qr n lock cr rm ds lo tm tk li rs)
            = Some (State (Some c) false qr n lock cr rm ds lo
                      (tm ++ [10000%N]) tk li rs)).
  { intros lock. unfold step. cbn [created]. rewrite Hemitter.
    cbn [handle]. unfold on_disconnected.
    by rewrite bool_decide_eq_false_2. }
  split.
  - intros -> Hbelow. unfold MAX_INIT_ATTEMPTS in Hbelow.
    eexists. split.
    { rewrite (run_step _ _ _ _ _ (Hevent false)). cbn.
      rewrite lookup_last, delete_last.
      destruct n as [|[|[|n]]]; try lia; cbn;
        rewrite lookup_last, delete_last; reflexivity. }
    cbn. by repeat split.
  - intros ->. eexists. split.
    { rewrite (run_step _ _ _ _ _ (Hevent true)). cbn.
      rewrite lookup_last, delete_last. reflexivity. }
    cbn. by repeat split.
Qed.

Lemma reconnects_after_disconnect_witness :
  0 < created connected /\
  "NAVIGATION" <> "LOGOUT" /\
  client connected = Some 0 /\
  isInitializing connected = false /\
  initializationAttempts connected < MAX_INIT_ATTEMPTS /\
  exists s1,
    run [("t", Emit 0 (Disconnected "NAVIGATION")); ("t", Fire 0);
         ("t", Settle 0 Resolved)] connected = Some s1 /\
    client s1 = Some 1 /\
    destroyCalls s1 = [0] /\
    initializationAttempts s1 = 1.
Proof.
  assert (Hemitter : 0 < created connected) by (vm_compute; lia).
  assert (Hreason : "NAVIGATION" <> "LOGOUT") by done.
  assert (Hbelow : initializationAttempts connected < MAX_INIT_ATTEMPTS)
    by (vm_compute; lia).
  destruct (reconnects_after_disconnect connected 0 0 "NAVIGATION" "t"
              Resolved Hemitter Hreason eq_refl) as [Hfree _].
  destruct (Hfree eq_refl Hbelow)
    as (s1 & Hrun & Hclient & _ & Hdestroyed & _ & _ & Hcount & _).
  do 5 (split; [done|]).
  exists s1. by repeat split.
Defined.

(** ** GET /get_contact_chats *)

(** X18.  GET /get_contact_chats refuses a missing or empty [number] with
    400.  Asked with a bare number it answers as it does when asked with
    the number followed by "@c.us".  It lists, in the order of the
    capability and with their count, the chats that involve the contact: a
    group with a list of participants when the contact is among them, and
    any other chat when its own id is the id of the contact. *)
Theorem contact_chats_listing number fetched all :
  (truthy number = false ->
   get_contact_chats number fetched
   = Refused 400 "number parameter is required") /\
  (forall bare,
     bare <> EmptyString ->
     includes bare "@c.us" = false ->
     get_contact_chats (Some bare) fetched
     = get_contact_chats (Some (bare +:+ "@c.us")) fetched) /\
  (forall text,
     number = Some text -> text <> EmptyString ->
     exists relevant,
       get_contact_chats number (Fulfilled all)
       = Json (ContactChatsBody (map contactChat relevant)
                 (Z.of_nat (length relevant))) /\
       relevant `sublist_of` all /\
       forall c,
         c ∈ relevant <->
         c ∈ all /\
         match chat_isGroup c, chat_participants c with
         | true, Some participants => chatIdOfNumber text ∈ participants
         | _, _ => chat_id c = chatIdOfNumber text
         end).
Proof.
  split; [|split].
  - intros Hnumber. unfold get_contact_chats. by rewrite Hnumber.
  - intros bare Hbare Hplain.
    assert (Hfull : bare +:+ "@c.us" <> EmptyString) by (by destruct bare).
    unfold get_contact_chats. cbn [truthy default from_option id].
    rewrite !bool_decide_eq_false_2 by done. cbn [negb].
    rewrite <- (chatIdOfNumber_plain bare Hplain).
    by rewrite chatIdOfNumber_idempotent.
  - intros text -> Htext. eexists. split; [|split].
    + unfold get_contact_chats. cbn [truthy default from_option id].
      rewrite bool_decide_eq_false_2 by done. cbn [negb].
      by rewrite length_map.
    + apply sublist_filter.
    + intros c. rewrite list_elem_of_filter. unfold involves.
      destruct (chat_isGroup c), (chat_participants c) as [ps|];
        rewrite ?bool_decide_eq_true; try tauto.
      rewrite existsb_exists. split.
      * intros [(p & Hp & Heq) Hc]. apply bool_decide_eq_true in Heq.
        subst. split; [done|]. by apply list_elem_of_In.
      * intros [Hc Hin]. split; [|done].
        exists (chatIdOfNumber text). split; [by apply list_elem_of_In|].
        by apply bool_decide_eq_true.
Qed.

Lemma contact_chats_listing_witness :
  includes "491511" "@c.us" = false /\
  get_contact_chats (Some "491511") (Fulfilled sample_chats)
  = get_contact_chats (Some "491511@c.us") (Fulfilled sample_chats) /\
  get_contact_chats (Some "491511") (Fulfilled sample_chats)
  = Json (ContactChatsBody
            [ContactChat "491511@c.us" "Ada" false 0 2 None;
             ContactChat "1203630@g.us" "Team" true 2 0 None] 2) /\
  exists relevant,
    get_contact_chats (Some "491511") (Fulfilled sample_chats)
    = Json (ContactChatsBody (map contactChat relevant)
              (Z.of_nat (length relevant))) /\
    relevant `sublist_of` sample_chats.
Proof.
  destruct (contact_chats_listing (Some "491511") (Fulfilled sample_chats)
              sample_chats) as (_ & Hbare & Hlist).
  destruct (Hlist "491511" eq_refl) as (relevant & Hreply & Hsub & _);
    [done|].
  split; [done|]. split; [by apply (Hbare "491511")|].
  split; [reflexivity|]. by exists relevant.
Defined.
